(** * ParkiLite: a shallow embedding of the parking back end

    The development follows [src/models.py], [src/database.py] and
    [src/main.py].

    Modelling choices, all visible in the definitions below:

    - Python [int] is [Z]; [str] is [string]; [Optional[T]] is [option T].
    - Python [float] (balances, rates, costs, [total_seconds()]) is an exact
      rational [Q]: the binary64 rounding of [+], [-], [*], [/] and the
      special values (NaN, infinities) are outside the model.
    - A naive [datetime] is its number of microseconds on the time line
      ([datetime] has microsecond resolution); [datetime.now()] is the
      [now] argument of an endpoint.
    - The relational store is a record of four tables; a table is the list
      of its rows in rowid order.  [select(..).where(..).first()] is [find],
      [session.get(T, pk)] is [find] on the primary key, an [INSERT] appends
      a row whose primary key is one more than the largest one present, and
      the commit of a loaded row is [UPDATE .. WHERE id = pk].
    - A key is bound as an SQLite integer, which is signed and 64 bits wide
      ([sqlite_integer]).  For a key of a request outside that range the
      driver raises [OverflowError] before any query; the embedding has no
      outcome for it: [session_get] is [session.get] on the keys of that
      range.
    - An endpoint is a computation in a state-and-exception monad over the
      store; the exceptions are [HTTPException] with its status code, the
      framework's request validation error and Python's [AttributeError].
    - The [detail] strings of the exceptions and the [message] of the
      deposit answer are left out. *)

From Stdlib Require Import ZArith QArith Qround String List Bool Lia Lqa.
Import ListNotations.

Local Open Scope Z_scope.

(** ** models.py *)

Definition datetime := Z.

Module User.
Record t := mk
  { id : Z;
    email : string;
    api_key : string;
    balance : Q }.
Definition with_balance (u : t) (b : Q) : t :=
  mk (id u) (email u) (api_key u) b.
End User.

Module Zone.
Record t := mk
  { id : Z;
    name : string;
    rate_per_min : Q;
    max_minutes : Z }.
End Zone.

Module Vehicle.
Record t := mk
  { id : Z;
    user_id : Z;
    plate : string }.
End Vehicle.

Module ParkingSession.
Record t := mk
  { id : Z;
    user_id : Z;
    vehicle_id : Z;
    zone_id : Z;
    started_at : datetime;
    ended_at : option datetime;
    minutes : option Z;
    cost : option Q;
    status : string }.
End ParkingSession.

Module VehicleResponse.
Record t := mk
  { id : Z;
    plate : string;
    user_id : Z }.
End VehicleResponse.

Module SessionResponse.
Record t := mk
  { id : Z;
    user_id : Z;
    vehicle_id : Z;
    zone_id : Z;
    started_at : datetime;
    ended_at : option datetime;
    minutes : option Z;
    cost : option Q;
    status : string;
    cost_total : option Q }.
End SessionResponse.

(** ** The store and the monad of the endpoints *)

Record Store := mkStore
  { users : list User.t;
    zones : list Zone.t;
    vehicles : list Vehicle.t;
    parking_sessions : list ParkingSession.t }.

Definition empty_db : Store := mkStore [] [] [] [].

Inductive Outcome (A : Type) : Type :=
| Ok (a : A)
| HTTPException (status_code : Z)
| RequestValidationError
| AttributeError.

Arguments Ok {A} a.
Arguments HTTPException {A} status_code.
Arguments RequestValidationError {A}.
Arguments AttributeError {A}.

Definition HTTP_401_UNAUTHORIZED : Z := 401.
Definition HTTP_403_FORBIDDEN : Z := 403.
Definition HTTP_404_NOT_FOUND : Z := 404.
Definition HTTP_409_CONFLICT : Z := 409.
Definition HTTP_422_UNPROCESSABLE_ENTITY : Z := 422.

Definition M (A : Type) : Type := Store -> Outcome A * Store.

Definition ret {A} (a : A) : M A := fun st => (Ok a, st).

Definition bind {A B} (m : M A) (k : A -> M B) : M B :=
  fun st =>
    match m st with
    | (Ok a, st') => k a st'
    | (HTTPException c, st') => (HTTPException c, st')
    | (RequestValidationError, st') => (RequestValidationError, st')
    | (AttributeError, st') => (AttributeError, st')
    end.

Definition raise {A} (status_code : Z) : M A :=
  fun st => (HTTPException status_code, st).

Definition raise_validation {A} : M A :=
  fun st => (RequestValidationError, st).

Definition raise_attribute {A} : M A :=
  fun st => (AttributeError, st).

Notation "x <- m ;; k" := (bind m (fun x => k))
  (at level 61, m at next level, right associativity).
Notation "m ;;; k" := (bind m (fun _ => k))
  (at level 61, right associativity).

(** [session.exec(select(T).where(p)).first()] *)
Definition exec_first {A} (table : Store -> list A) (where_ : A -> bool)
  : M (option A) :=
  fun st => (Ok (find where_ (table st)), st).

(** [session.exec(select(T).where(p)).all()] *)
Definition exec_all {A} (table : Store -> list A) (where_ : A -> bool)
  : M (list A) :=
  fun st => (Ok (filter where_ (table st)), st).

(** The integers the driver can bind as a key. *)
Definition sqlite_integer (n : Z) : Prop :=
  - 9223372036854775808 <= n < 9223372036854775808.

(** [session.get(T, pk)], for a key that is a [sqlite_integer]. *)
Definition session_get {A} (table : Store -> list A) (id : A -> Z) (pk : Z)
  : M (option A) :=
  exec_first table (fun row => id row =? pk).

(** The primary key the store gives to the next inserted row. *)
Definition next_id {A} (id : A -> Z) (rows : list A) : Z :=
  1 + fold_right Z.max 0 (map id rows).

(** [session.add(x); session.commit(); session.refresh(x)] for a new row. *)
Definition add_user (email api_key : string) (balance : Q) : M User.t :=
  fun st =>
    let row := User.mk (next_id User.id (users st)) email api_key balance in
    (Ok row,
     mkStore (users st ++ [row]) (zones st) (vehicles st) (parking_sessions st)).

Definition add_zone (name : string) (rate_per_min : Q) (max_minutes : Z)
  : M Zone.t :=
  fun st =>
    let row := Zone.mk (next_id Zone.id (zones st)) name rate_per_min max_minutes in
    (Ok row,
     mkStore (users st) (zones st ++ [row]) (vehicles st) (parking_sessions st)).

Definition add_vehicle (user_id : Z) (plate : string) : M Vehicle.t :=
  fun st =>
    let row := Vehicle.mk (next_id Vehicle.id (vehicles st)) user_id plate in
    (Ok row,
     mkStore (users st) (zones st) (vehicles st ++ [row]) (parking_sessions st)).

Definition add_parking_session (user_id vehicle_id zone_id : Z)
  (started_at : datetime) (status : string) : M ParkingSession.t :=
  fun st =>
    let row :=
      ParkingSession.mk (next_id ParkingSession.id (parking_sessions st))
        user_id vehicle_id zone_id started_at None None None status in
    (Ok row,
     mkStore (users st) (zones st) (vehicles st) (parking_sessions st ++ [row])).

(** [UPDATE table SET .. WHERE id = pk]: the commit of a loaded row. *)
Definition update_row {A} (id : A -> Z) (row : A) (rows : list A) : list A :=
  map (fun r => if id r =? id row then row else r) rows.

Definition commit_parking_session (s : ParkingSession.t) : M unit :=
  fun st =>
    (Ok tt,
     mkStore (users st) (zones st) (vehicles st)
       (update_row ParkingSession.id s (parking_sessions st))).

Definition commit_user (u : User.t) : M unit :=
  fun st =>
    (Ok tt,
     mkStore (update_row User.id u (users st)) (zones st) (vehicles st)
       (parking_sessions st)).

(** ** database.py *)

Definition seed_data : M unit :=
  existing_user <-
    exec_first users (fun u => (User.email u =? "demo@iberopuebla.mx")%string) ;;
  match existing_user with
  | Some _ => ret tt
  | None => add_user "demo@iberopuebla.mx" "testkey" 300%Q ;;; ret tt
  end ;;;
  existing_zones <- exec_all zones (fun _ => true) ;;
  match existing_zones with
  | _ :: _ => ret tt
  | [] => add_zone "A" (3 # 2) 120 ;;; add_zone "B" 1%Q 180 ;;; ret tt
  end.

(** The store after [create_db_and_tables(); seed_data()] on a new
    database file. *)
Definition seeded : Store := snd (seed_data empty_db).

(** ** main.py *)

Definition get_current_user (x_api_key : string) : M User.t :=
  if (x_api_key =? "")%string then raise HTTP_401_UNAUTHORIZED
  else
    user <- exec_first users (fun u => (User.api_key u =? x_api_key)%string) ;;
    match user with
    | None => raise HTTP_401_UNAUTHORIZED
    | Some user => ret user
    end.

Definition get_zones (current_user : User.t) : M (list Zone.t) :=
  exec_all zones (fun _ => true).

Definition vehicle_response (v : Vehicle.t) : VehicleResponse.t :=
  VehicleResponse.mk (Vehicle.id v) (Vehicle.plate v) (Vehicle.user_id v).

Definition create_vehicle (plate : string) (current_user : User.t)
  : M VehicleResponse.t :=
  existing <-
    exec_first vehicles
      (fun v => (Vehicle.user_id v =? User.id current_user)
                && (Vehicle.plate v =? plate)%string) ;;
  match existing with
  | Some _ => raise HTTP_409_CONFLICT
  | None =>
      vehicle <- add_vehicle (User.id current_user) plate ;;
      ret (vehicle_response vehicle)
  end.

Definition get_vehicles (current_user : User.t) : M (list VehicleResponse.t) :=
  vs <- exec_all vehicles (fun v => Vehicle.user_id v =? User.id current_user) ;;
  ret (map vehicle_response vs).

Definition session_response (s : ParkingSession.t) (cost_total : option Q)
  : SessionResponse.t :=
  SessionResponse.mk
    (ParkingSession.id s) (ParkingSession.user_id s)
    (ParkingSession.vehicle_id s) (ParkingSession.zone_id s)
    (ParkingSession.started_at s) (ParkingSession.ended_at s)
    (ParkingSession.minutes s) (ParkingSession.cost s)
    (ParkingSession.status s) cost_total.

Definition start_session (plate : string) (zone_id : Z) (now : datetime)
  (current_user : User.t) : M SessionResponse.t :=
  vehicle <-
    exec_first vehicles
      (fun v => (Vehicle.user_id v =? User.id current_user)
                && (Vehicle.plate v =? plate)%string) ;;
  match vehicle with
  | None => raise HTTP_404_NOT_FOUND
  | Some vehicle =>
      active_session <-
        exec_first parking_sessions
          (fun s => (ParkingSession.vehicle_id s =? Vehicle.id vehicle)
                    && (ParkingSession.status s =? "active")%string) ;;
      match active_session with
      | Some _ => raise HTTP_409_CONFLICT
      | None =>
          zone <- session_get zones Zone.id zone_id ;;
          match zone with
          | None => raise HTTP_404_NOT_FOUND
          | Some _ =>
              new_session <-
                add_parking_session (User.id current_user) (Vehicle.id vehicle)
                  zone_id now "active" ;;
              ret (session_response new_session None)
          end
      end
  end.

(** [timedelta.total_seconds()] of a difference of two [datetime]s. *)
Definition total_seconds (microseconds : Z) : Q :=
  inject_Z microseconds / 1000000.

(** [math.ceil] *)
Definition math_ceil (x : Q) : Z := Qceiling x.

(** [minutes] of lines 201-203, from the two clock readings. *)
Definition elapsed_minutes (started_at ended_at : datetime) : Z :=
  let duration_seconds := total_seconds (ended_at - started_at) in
  math_ceil (duration_seconds / 60).

(** [x < y] on floats *)
Definition Qltb (x y : Q) : bool := negb (Qle_bool y x).

(** The local variables of [stop_session] after lines 205-223. *)
Record Bill := mkBill
  { cost : Q;
    cost_total : Q;
    final_status : string;
    billed_user : User.t }.

(** Lines 206-223 of [stop_session]: [zone] is what [session.get(Zone, ..)]
    gave, and reading an attribute of [None] raises [AttributeError]. *)
Definition billing (minutes : Z) (zone : option Zone.t) (current_user : User.t)
  : M Bill :=
  if minutes <=? 3 then ret (mkBill 0 0 "completed" current_user)
  else
    match zone with
    | None => raise_attribute
    | Some zone =>
        let cost := (inject_Z minutes * Zone.rate_per_min zone)%Q in
        let cost_total := cost in
        if minutes >? Zone.max_minutes zone then
          ret (mkBill cost (cost + 100)%Q "fined" current_user)
        else if Qltb (User.balance current_user) cost then
          ret (mkBill cost cost_total "pending_payment" current_user)
        else
          ret (mkBill cost cost_total "completed"
                 (User.with_balance current_user
                    (User.balance current_user - cost)%Q))
    end.

Definition finalize (s : ParkingSession.t) (ended_at : datetime) (minutes : Z)
  (cost : Q) (status : string) : ParkingSession.t :=
  ParkingSession.mk
    (ParkingSession.id s) (ParkingSession.user_id s)
    (ParkingSession.vehicle_id s) (ParkingSession.zone_id s)
    (ParkingSession.started_at s) (Some ended_at) (Some minutes) (Some cost)
    status.

Definition stop_session (session_id : Z) (now : datetime)
  (current_user : User.t) : M SessionResponse.t :=
  parking_session <- session_get parking_sessions ParkingSession.id session_id ;;
  match parking_session with
  | None => raise HTTP_404_NOT_FOUND
  | Some parking_session =>
      if negb (ParkingSession.user_id parking_session =? User.id current_user)
      then raise HTTP_403_FORBIDDEN
      else if negb (ParkingSession.status parking_session =? "active")%string
      then raise HTTP_422_UNPROCESSABLE_ENTITY
      else
        let ended_at := now in
        let minutes :=
          elapsed_minutes (ParkingSession.started_at parking_session) ended_at in
        zone <- session_get zones Zone.id (ParkingSession.zone_id parking_session) ;;
        bill <- billing minutes zone current_user ;;
        let parking_session :=
          finalize parking_session ended_at minutes (cost bill)
            (final_status bill) in
        commit_parking_session parking_session ;;;
        commit_user (billed_user bill) ;;;
        ret (session_response parking_session
               (if (final_status bill =? "fined")%string
                then Some (cost_total bill) else None))
  end.

(** The handler of [GET /sessions/{session_id}]. *)
Definition get_session (session_id : Z) (current_user : User.t)
  : M SessionResponse.t :=
  parking_session <- session_get parking_sessions ParkingSession.id session_id ;;
  match parking_session with
  | None => raise HTTP_404_NOT_FOUND
  | Some parking_session =>
      if negb (ParkingSession.user_id parking_session =? User.id current_user)
      then raise HTTP_403_FORBIDDEN
      else
        let cost_total :=
          if (ParkingSession.status parking_session =? "fined")%string then
            match ParkingSession.cost parking_session with
            | Some c => Some (c + 100)%Q
            | None => None
            end
          else None in
        ret (session_response parking_session cost_total)
  end.

(** What the parameter [session] of an endpoint can be bound to: the
    database session of [database.get_session], or the value returned by
    the handler [get_session] of [main.py]. *)
Inductive SessionArg : Type :=
| DbSession
| HandlerResult (r : SessionResponse.t).

(** [session.add(current_user); session.commit(); session.refresh(current_user)]:
    a [SessionResponse] has no attribute [add]. *)
Definition session_add_commit_user (session : SessionArg) (u : User.t) : M unit :=
  match session with
  | DbSession => commit_user u
  | HandlerResult _ => raise_attribute
  end.

Definition deposit_to_wallet (amount : Q) (session : SessionArg)
  (current_user : User.t) : M Q :=
  if Qle_bool amount 0 then raise HTTP_422_UNPROCESSABLE_ENTITY
  else
    let current_user :=
      User.with_balance current_user (User.balance current_user + amount)%Q in
    session_add_commit_user session current_user ;;;
    ret (User.balance current_user).

(** ** The routes: how the framework wires the endpoints

    [Depends(..)] in a parameter default is evaluated when the [def] is
    executed.  [main.py] imports [get_session] from [database.py] and, at
    line 250, defines the handler of [GET /sessions/{session_id}] under the
    same name.  Every endpoint defined before that line (and that handler
    itself) receives the database session.  [deposit_to_wallet] is defined
    after it, so its [Depends(get_session)] names the handler: the
    framework runs the handler as a dependency, reading its [session_id]
    from the query string, and binds [session] to the [SessionResponse] it
    returns. *)

Inductive Request : Type :=
| GET_root
| GET_zones
| POST_vehicles (plate : string)
| GET_vehicles
| POST_sessions_start (plate : string) (zone_id : Z)
| POST_sessions_stop (session_id : Z)
| GET_sessions (session_id : Z)
| POST_wallet_deposit (query_session_id : option Z) (amount : Q).

Inductive Response : Type :=
| RootInfo
| ZoneList (zs : list Zone.t)
| VehicleCreated (v : VehicleResponse.t)
| VehicleList (vs : list VehicleResponse.t)
| SessionView (r : SessionResponse.t)
| DepositDone (balance : Q).

(** [Depends(get_current_user)]: the header [x-api-key] is required. *)
Definition depends_current_user (x_api_key : option string) : M User.t :=
  match x_api_key with
  | None => raise_validation
  | Some k => get_current_user k
  end.

Definition handle (x_api_key : option string) (now : datetime) (req : Request)
  : M Response :=
  match req with
  | GET_root => ret RootInfo
  | GET_zones =>
      current_user <- depends_current_user x_api_key ;;
      zs <- get_zones current_user ;;
      ret (ZoneList zs)
  | POST_vehicles plate =>
      current_user <- depends_current_user x_api_key ;;
      v <- create_vehicle plate current_user ;;
      ret (VehicleCreated v)
  | GET_vehicles =>
      current_user <- depends_current_user x_api_key ;;
      vs <- get_vehicles current_user ;;
      ret (VehicleList vs)
  | POST_sessions_start plate zone_id =>
      current_user <- depends_current_user x_api_key ;;
      r <- start_session plate zone_id now current_user ;;
      ret (SessionView r)
  | POST_sessions_stop session_id =>
      current_user <- depends_current_user x_api_key ;;
      r <- stop_session session_id now current_user ;;
      ret (SessionView r)
  | GET_sessions session_id =>
      current_user <- depends_current_user x_api_key ;;
      r <- get_session session_id current_user ;;
      ret (SessionView r)
  | POST_wallet_deposit query_session_id amount =>
      current_user <- depends_current_user x_api_key ;;
      match query_session_id with
      | None => raise_validation
      | Some session_id =>
          session <- get_session session_id current_user ;;
          balance <-
            deposit_to_wallet amount (HandlerResult session) current_user ;;
          ret (DepositDone balance)
      end
  end.

(** [lifespan]: at every start of the application,
    [create_db_and_tables(); seed_data()] runs on the database as it is. *)
Definition lifespan : M unit := seed_data.

(** The stores the service can be in, started on [st0]: it answers
    requests, and it can be started again. *)
Inductive reachable (st0 : Store) : Store -> Prop :=
| reachable_init : reachable st0 st0
| reachable_step (st : Store) (x_api_key : option string) (now : datetime)
    (req : Request) :
    reachable st0 st ->
    reachable st0 (snd (handle x_api_key now req st))
| reachable_restart (st : Store) :
    reachable st0 st ->
    reachable st0 (snd (lifespan st)).

(** ** The properties of the store the claims speak of *)

Definition is_active_for (vehicle_id : Z) (s : ParkingSession.t) : bool :=
  (ParkingSession.vehicle_id s =? vehicle_id)
  && (ParkingSession.status s =? "active")%string.

Definition active_sessions (vehicle_id : Z) (st : Store)
  : list ParkingSession.t :=
  filter (is_active_for vehicle_id) (parking_sessions st).

(** At most one session with [status = active] per vehicle. *)
Definition single_active (st : Store) : Prop :=
  forall vehicle_id, (length (active_sessions vehicle_id st) <= 1)%nat.

Definition lookup_zone (zone_id : Z) (st : Store) : option Zone.t :=
  find (fun z => Zone.id z =? zone_id) (zones st).

Definition lookup_session (session_id : Z) (st : Store)
  : option ParkingSession.t :=
  find (fun s => ParkingSession.id s =? session_id) (parking_sessions st).

Definition lookup_vehicle (user_id : Z) (plate : string) (st : Store)
  : option Vehicle.t :=
  find (fun v => (Vehicle.user_id v =? user_id)
                 && (Vehicle.plate v =? plate)%string) (vehicles st).

(** Every session names a zone of the store. *)
Definition zones_present (st : Store) : Prop :=
  forall s, In s (parking_sessions st) ->
            lookup_zone (ParkingSession.zone_id s) st <> None.

Definition balances_nonneg (st : Store) : Prop :=
  forall u, In u (users st) -> (0 <= User.balance u)%Q.

(** The primary key of [users] identifies a row. *)
Definition users_pk_unique (st : Store) : Prop :=
  NoDup (map User.id (users st)).

(** The minutes as the specification words them: the elapsed time taken in
    whole seconds, then the ceiling of the sixtieth. *)
Definition whole_seconds (started_at ended_at : datetime) : Z :=
  (ended_at - started_at) / 1000000.

Definition minutes_of_whole_seconds (started_at ended_at : datetime) : Z :=
  Qceiling (inject_Z (whole_seconds started_at ended_at) / 60).

(** The four ways [billing] returns. *)
Inductive billed (minutes : Z) (zone : option Zone.t) (u : User.t)
  : Bill -> Prop :=
| billed_grace :
    minutes <= 3 ->
    billed minutes zone u (mkBill 0 0 "completed" u)
| billed_fined (z : Zone.t) :
    zone = Some z -> 3 < minutes -> Zone.max_minutes z < minutes ->
    billed minutes zone u
      (mkBill (inject_Z minutes * Zone.rate_per_min z)
         (inject_Z minutes * Zone.rate_per_min z + 100) "fined" u)
| billed_pending (z : Zone.t) :
    zone = Some z -> 3 < minutes -> minutes <= Zone.max_minutes z ->
    (User.balance u < inject_Z minutes * Zone.rate_per_min z)%Q ->
    billed minutes zone u
      (mkBill (inject_Z minutes * Zone.rate_per_min z)
         (inject_Z minutes * Zone.rate_per_min z) "pending_payment" u)
| billed_paid (z : Zone.t) :
    zone = Some z -> 3 < minutes -> minutes <= Zone.max_minutes z ->
    (inject_Z minutes * Zone.rate_per_min z <= User.balance u)%Q ->
    billed minutes zone u
      (mkBill (inject_Z minutes * Zone.rate_per_min z)
         (inject_Z minutes * Zone.rate_per_min z) "completed"
         (User.with_balance u
            (User.balance u - inject_Z minutes * Zone.rate_per_min z))).

(** The store and the answer of a stop that went through. *)
Definition stopped_store (st : Store) (s : ParkingSession.t) (now : datetime)
  (b : Bill) : Store :=
  mkStore (update_row User.id (billed_user b) (users st)) (zones st)
    (vehicles st)
    (update_row ParkingSession.id
       (finalize s now (elapsed_minutes (ParkingSession.started_at s) now)
          (cost b) (final_status b))
       (parking_sessions st)).

Definition stopped_response (s : ParkingSession.t) (now : datetime) (b : Bill)
  : SessionResponse.t :=
  session_response
    (finalize s now (elapsed_minutes (ParkingSession.started_at s) now)
       (cost b) (final_status b))
    (if (final_status b =? "fined")%string then Some (cost_total b) else None).

(** The rows that [create_vehicle] and [start_session] insert. *)
Definition new_vehicle (st : Store) (u : User.t) (plate : string) : Vehicle.t :=
  Vehicle.mk (next_id Vehicle.id (vehicles st)) (User.id u) plate.

Definition new_session (st : Store) (u : User.t) (v : Vehicle.t) (zone_id : Z)
  (now : datetime) : ParkingSession.t :=
  ParkingSession.mk (next_id ParkingSession.id (parking_sessions st))
    (User.id u) (Vehicle.id v) zone_id now None None None "active".

Definition with_vehicle (st : Store) (v : Vehicle.t) : Store :=
  mkStore (users st) (zones st) (vehicles st ++ [v]) (parking_sessions st).

Definition with_session (st : Store) (s : ParkingSession.t) : Store :=
  mkStore (users st) (zones st) (vehicles st) (parking_sessions st ++ [s]).

(** The tables of users and of zones after [seed_data]. *)
Definition seeded_users (st : Store) : list User.t :=
  match
    find (fun u => (User.email u =? "demo@iberopuebla.mx")%string) (users st)
  with
  | Some _ => users st
  | None =>
      users st
      ++ [User.mk (next_id User.id (users st)) "demo@iberopuebla.mx"
            "testkey" 300]
  end.

Definition seeded_zones (st : Store) : list Zone.t :=
  match zones st with
  | [] => [Zone.mk 1 "A" (3 # 2) 120; Zone.mk 2 "B" 1 180]
  | _ :: _ => zones st
  end.

(** What one request, or one start of the application, can do to the
    store. *)
Inductive transition (st : Store) : Store -> Prop :=
| transition_none : transition st st
| transition_vehicle (u : User.t) (plate : string) :
    lookup_vehicle (User.id u) plate st = None ->
    transition st (with_vehicle st (new_vehicle st u plate))
| transition_start (u : User.t) (v : Vehicle.t) (zone_id : Z) (now : datetime)
    (z : Zone.t) :
    active_sessions (Vehicle.id v) st = [] ->
    lookup_zone zone_id st = Some z ->
    transition st (with_session st (new_session st u v zone_id now))
| transition_stop (u : User.t) (session_id : Z) (s : ParkingSession.t)
    (now : datetime) (b : Bill) :
    In u (users st) ->
    lookup_session session_id st = Some s ->
    ParkingSession.user_id s = User.id u ->
    ParkingSession.status s = "active"%string ->
    billed (elapsed_minutes (ParkingSession.started_at s) now)
      (lookup_zone (ParkingSession.zone_id s) st) u b ->
    transition st (stopped_store st s now b)
| transition_seed :
    transition st (mkStore (seeded_users st) (seeded_zones st) (vehicles st)
                     (parking_sessions st)).

Ltac run :=
  cbv [bind ret raise raise_validation raise_attribute exec_first exec_all
       session_get add_vehicle add_parking_session commit_parking_session
       commit_user] in *.

(** ** Concrete stores, for examples

    The seed user registers a vehicle and parks it in zone A at time 0. *)
Definition demo_user : User.t :=
  User.mk 1 "demo@iberopuebla.mx" "testkey" 300.

Definition st_vehicle : Store :=
  snd (handle (Some "testkey"%string) 0 (POST_vehicles "ABC123") seeded).

Definition st_parked : Store :=
  snd (handle (Some "testkey"%string) 0 (POST_sessions_start "ABC123" 1)
         st_vehicle).

(** The same situation for a user whose balance is 5. *)
Definition poor_user : User.t :=
  User.mk 1 "demo@iberopuebla.mx" "testkey" 5.

Definition st_poor_parked : Store :=
  mkStore [poor_user] (zones st_parked) (vehicles st_parked)
    (parking_sessions st_parked).

(** The parked vehicle leaves after 4 minutes. *)
Definition st_paid : Store :=
  snd (handle (Some "testkey"%string) 240000000 (POST_sessions_stop 1)
         st_parked).

(** A second user; nobody of that name is in the concrete stores. *)
Definition other_user : User.t :=
  User.mk 2 "other@iberopuebla.mx" "otherkey" 0.

(** A store no request produces: its only session names a zone that is
    not there. *)
Definition st_dangling : Store :=
  mkStore [demo_user] [] [Vehicle.mk 1 1 "ABC123"]
    [ParkingSession.mk 1 1 1 7 0 None None None "active"].

(** The cases of a request whose credential was refused: [Hf] says that
    [depends_current_user] did not return. *)
Ltac auth_failed Hf :=
  match goal with
  | |- context [depends_current_user ?k ?st] =>
      let a := fresh "a" in
      let st1 := fresh "st" in
      destruct (depends_current_user k st) as [[a| | |] st1];
      simpl in *; subst; [exfalso; now apply (Hf a)|..]
  end.

(** ** The effect of an authenticated request

    [acts u st st']: what a request of the authenticated user [u] can do to
    the store, with what the endpoint checked before it wrote. *)
Inductive acts (u : User.t) (st : Store) : Store -> Prop :=
| acts_none : acts u st st
| acts_vehicle (plate : string) :
    lookup_vehicle (User.id u) plate st = None ->
    acts u st (with_vehicle st (new_vehicle st u plate))
| acts_start (plate : string) (v : Vehicle.t) (zone_id : Z) (now : datetime)
    (z : Zone.t) :
    lookup_vehicle (User.id u) plate st = Some v ->
    active_sessions (Vehicle.id v) st = [] ->
    lookup_zone zone_id st = Some z ->
    acts u st (with_session st (new_session st u v zone_id now))
| acts_stop (session_id : Z) (s : ParkingSession.t) (now : datetime)
    (b : Bill) :
    lookup_session session_id st = Some s ->
    ParkingSession.user_id s = User.id u ->
    ParkingSession.status s = "active"%string ->
    billed (elapsed_minutes (ParkingSession.started_at s) now)
      (lookup_zone (ParkingSession.zone_id s) st) u b ->
    acts u st (stopped_store st s now b).

(** ** Further properties of the store *)

Definition has_demo_user (st : Store) : Prop :=
  exists u, In u (users st)
            /\ User.email u = "demo@iberopuebla.mx"%string.

(** [users.api_key] is declared unique: the insert of the seed user goes
    through when nobody else holds its key. *)
Definition seed_key_free (st : Store) : Prop :=
  forall u, In u (users st) -> User.api_key u = "testkey"%string ->
            User.email u = "demo@iberopuebla.mx"%string.

Definition sessions_pk_unique (st : Store) : Prop :=
  NoDup (map ParkingSession.id (parking_sessions st)).

Definition vehicles_pk_unique (st : Store) : Prop :=
  NoDup (map Vehicle.id (vehicles st)).

(** No user has two vehicles with one plate. *)
Definition plates_unique (st : Store) : Prop :=
  NoDup (map (fun v => (Vehicle.user_id v, Vehicle.plate v)) (vehicles st)).

(** The columns of a row that no endpoint assigns after the insert. *)
Definition session_key (s : ParkingSession.t) : Z * Z * Z * Z * datetime :=
  (ParkingSession.id s, ParkingSession.user_id s, ParkingSession.vehicle_id s,
   ParkingSession.zone_id s, ParkingSession.started_at s).

Definition user_identity (u : User.t) : Z * string * string :=
  (User.id u, User.email u, User.api_key u).

(** What a session took from the balance of user [user_id]: its cost when
    it is his and ended completed. *)
Definition charge (user_id : Z) (s : ParkingSession.t) : Q :=
  if (ParkingSession.user_id s =? user_id)
     && (ParkingSession.status s =? "completed")%string
  then match ParkingSession.cost s with Some c => c | None => 0%Q end
  else 0%Q.

Definition charged (user_id : Z) (st : Store) : Q :=
  fold_right (fun s acc => (charge user_id s + acc)%Q) 0%Q (parking_sessions st).

(** The fields of a session agree with its status. *)
Definition session_wf (s : ParkingSession.t) : Prop :=
  (ParkingSession.status s = "active"%string
   /\ ParkingSession.ended_at s = None
   /\ ParkingSession.minutes s = None
   /\ ParkingSession.cost s = None)
  \/ ((ParkingSession.status s = "completed"%string
       \/ ParkingSession.status s = "fined"%string
       \/ ParkingSession.status s = "pending_payment"%string)
      /\ (exists t, ParkingSession.ended_at s = Some t)
      /\ (exists m, ParkingSession.minutes s = Some m)
      /\ (exists c, ParkingSession.cost s = Some c)).

(** The stored cost and status of an ended session are those of the tariff
    of its zone. *)
Definition session_priced (st : Store) (s : ParkingSession.t) : Prop :=
  forall m, ParkingSession.minutes s = Some m ->
    (m <= 3 ->
     ParkingSession.cost s = Some 0%Q
     /\ ParkingSession.status s = "completed"%string)
    /\ (3 < m ->
        exists z,
          lookup_zone (ParkingSession.zone_id s) st = Some z
          /\ ParkingSession.cost s = Some (inject_Z m * Zone.rate_per_min z)%Q
          /\ (Zone.max_minutes z < m <->
              ParkingSession.status s = "fined"%string)).

(** The foreign keys of the rows resolve, and a session is of the owner of
    its vehicle. *)
Definition references_resolve (st : Store) : Prop :=
  (forall v, In v (vehicles st) ->
     exists u, In u (users st) /\ User.id u = Vehicle.user_id v)
  /\ (forall s, In s (parking_sessions st) ->
        (exists u, In u (users st) /\ User.id u = ParkingSession.user_id s)
        /\ (exists v, In v (vehicles st)
                      /\ Vehicle.id v = ParkingSession.vehicle_id s
                      /\ Vehicle.user_id v = ParkingSession.user_id s)
        /\ (exists z, In z (zones st)
                      /\ Zone.id z = ParkingSession.zone_id s)).

(** Two users, each with a vehicle of plate ABC123 parked since time 0,
    the first in zone A and the second in zone B. *)
Definition st_two_users : Store :=
  mkStore [demo_user; other_user] (zones seeded)
    [Vehicle.mk 1 1 "ABC123"; Vehicle.mk 2 2 "ABC123"]
    [ParkingSession.mk 1 1 1 1 0 None None None "active";
     ParkingSession.mk 2 2 2 2 0 None None None "active"].

Definition rates_nonneg (st : Store) : Prop :=
  forall z, In z (zones st) -> (0 <= Zone.rate_per_min z)%Q.

(** * Proofs *)

(** ** Lists of rows *)

Lemma find_update_row {A} (id : A -> Z) (row : A) (rows : list A) (pk : Z) :
  find (fun r => id r =? pk) (update_row id row rows) =
  match find (fun r => id r =? pk) rows with
  | Some r => if id r =? id row then Some row else Some r
  | None => None
  end.
Proof.
  induction rows as [|r rows IH]; simpl; [reflexivity|].
  destruct (id r =? id row) eqn:E.
  - apply Z.eqb_eq in E. rewrite <- E.
    destruct (id r =? pk) eqn:E'; [now rewrite Z.eqb_refl|].
    rewrite E. exact IH.
  - destruct (id r =? pk) eqn:E'; [now rewrite E|exact IH].
Qed.

Lemma update_row_same {A} (id : A -> Z) (row : A) (rows : list A) :
  NoDup (map id rows) -> In row rows -> update_row id row rows = rows.
Proof.
  intros ND HIn. unfold update_row.
  rewrite <- (map_id rows) at 2. apply map_ext_in.
  intros r Hr. destruct (id r =? id row) eqn:E; [|reflexivity].
  apply Z.eqb_eq in E.
  clear -ND HIn Hr E. induction rows as [|x rows IH]; [destruct HIn|].
  simpl in ND. inversion ND as [|? ? Hnot ND']; subst.
  destruct HIn as [->|HIn], Hr as [->|Hr]; auto.
  - exfalso. apply Hnot. rewrite <- E. now apply in_map.
  - exfalso. apply Hnot. rewrite E. now apply in_map.
Qed.

Lemma update_row_map_id {A} (id : A -> Z) (row : A) (rows : list A) :
  map id (update_row id row rows) = map id rows.
Proof.
  unfold update_row. rewrite map_map. apply map_ext.
  intros r. destruct (id r =? id row) eqn:E; [|reflexivity].
  apply Z.eqb_eq in E. now rewrite E.
Qed.

Lemma in_update_row {A} (id : A -> Z) (row : A) (rows : list A) (r : A) :
  In r (update_row id row rows) -> r = row \/ In r rows.
Proof.
  unfold update_row. rewrite in_map_iff. intros [x [Hx HIn]].
  destruct (id x =? id row); subst; auto.
Qed.

Lemma find_app_none {A} (p : A -> bool) (l l' : list A) :
  find p l = None -> find p (l ++ l') = find p l'.
Proof.
  induction l as [|a l IH]; simpl; [reflexivity|].
  destruct (p a); [discriminate|exact IH].
Qed.

Lemma find_filter_nil {A} (p : A -> bool) (l : list A) :
  find p l = None <-> filter p l = [].
Proof.
  induction l as [|a l IH]; simpl; [tauto|].
  destruct (p a); [split; discriminate|exact IH].
Qed.

Lemma NoDup_app_fresh {A} (l : list A) (a : A) :
  NoDup l -> ~ In a l -> NoDup (l ++ [a]).
Proof.
  intros ND Hnot. induction ND as [|x l Hx ND IH]; simpl.
  - constructor; [tauto|constructor].
  - constructor.
    + intros HIn. apply in_app_or in HIn. destruct HIn as [HIn|[E|[]]]; auto.
      subst. apply Hnot. now left.
    + apply IH. intros HIn. apply Hnot. now right.
Qed.

Lemma next_id_fresh {A} (id : A -> Z) (rows : list A) (r : A) :
  In r rows -> id r < next_id id rows.
Proof.
  unfold next_id. induction rows as [|x rows IH]; cbn [fold_right map In];
    [tauto|].
  intros [->|HIn]; [lia|]. specialize (IH HIn). lia.
Qed.

(** ** [stop_session] *)

Lemma billing_store (minutes : Z) (zone : option Zone.t) (u : User.t)
  (st : Store) : snd (billing minutes zone u st) = st.
Proof.
  unfold billing.
  destruct (minutes <=? 3); [reflexivity|].
  destruct zone as [z|]; [|reflexivity].
  destruct (minutes >? Zone.max_minutes z); [reflexivity|].
  destruct (Qltb _ _); reflexivity.
Qed.

Lemma Qltb_true (x y : Q) : Qltb x y = true <-> (x < y)%Q.
Proof.
  unfold Qltb. rewrite negb_true_iff.
  rewrite <- not_true_iff_false, Qle_bool_iff. split.
  - apply Qnot_le_lt.
  - apply Qlt_not_le.
Qed.

Lemma Qltb_false (x y : Q) : Qltb x y = false <-> (y <= x)%Q.
Proof.
  unfold Qltb. rewrite negb_false_iff. apply Qle_bool_iff.
Qed.

Lemma billing_ok (minutes : Z) (zone : option Zone.t) (u : User.t)
  (st st' : Store) (b : Bill) :
  billing minutes zone u st = (Ok b, st') ->
  st' = st /\ billed minutes zone u b.
Proof.
  intros H. split.
  - pose proof (billing_store minutes zone u st) as Hs. now rewrite H in Hs.
  - revert H. unfold billing.
    destruct (minutes <=? 3) eqn:E1.
    + apply Z.leb_le in E1. intros H; inversion H; subst. now constructor.
    + apply Z.leb_gt in E1. destruct zone as [z|]; [|discriminate].
      destruct (minutes >? Zone.max_minutes z) eqn:E2.
      * apply Z.gtb_lt in E2. intros H; inversion H; subst.
        now apply billed_fined.
      * assert (minutes <= Zone.max_minutes z) as E2'.
        { rewrite Z.gtb_ltb in E2. now apply Z.ltb_ge in E2. }
        destruct (Qltb _ _) eqn:E3; intros H; inversion H; subst.
        -- apply Qltb_true in E3. now apply billed_pending.
        -- apply Qltb_false in E3. now apply billed_paid.
Qed.

Lemma billed_total (minutes : Z) (zone : option Zone.t) (u : User.t)
  (st : Store) (b : Bill) :
  billed minutes zone u b -> billing minutes zone u st = (Ok b, st).
Proof.
  intros H. unfold billing. destruct H as [H|z -> H1 H2|z -> H1 H2 H3|z -> H1 H2 H3].
  - apply Z.leb_le in H. now rewrite H.
  - apply Z.leb_gt in H1. rewrite H1.
    apply Z.gtb_lt in H2. now rewrite H2.
  - apply Z.leb_gt in H1. rewrite H1.
    assert ((minutes >? Zone.max_minutes z) = false) as ->.
    { rewrite Z.gtb_ltb. now apply Z.ltb_ge. }
    apply Qltb_true in H3. now rewrite H3.
  - apply Z.leb_gt in H1. rewrite H1.
    assert ((minutes >? Zone.max_minutes z) = false) as ->.
    { rewrite Z.gtb_ltb. now apply Z.ltb_ge. }
    apply Qltb_false in H3. now rewrite H3.
Qed.

Lemma stop_session_ok (session_id : Z) (now : datetime) (u : User.t)
  (st st' : Store) (r : SessionResponse.t) :
  stop_session session_id now u st = (Ok r, st') ->
  exists s b,
    lookup_session session_id st = Some s
    /\ ParkingSession.user_id s = User.id u
    /\ ParkingSession.status s = "active"%string
    /\ billed (elapsed_minutes (ParkingSession.started_at s) now)
         (lookup_zone (ParkingSession.zone_id s) st) u b
    /\ st' = stopped_store st s now b
    /\ r = stopped_response s now b.
Proof.
  unfold stop_session, lookup_session, lookup_zone. run.
  destruct (find _ (parking_sessions st)) as [s|] eqn:Hs; [|discriminate].
  destruct (ParkingSession.user_id s =? User.id u) eqn:Hu; [|discriminate].
  destruct (ParkingSession.status s =? "active")%string eqn:Ha; [|discriminate].
  simpl.
  destruct (billing _ _ u st) as [[b| | |] st1] eqn:Hb; try discriminate.
  apply billing_ok in Hb. destruct Hb as [-> Hb].
  intros H. inversion H; subst; clear H.
  exists s, b. repeat split; auto.
  - now apply Z.eqb_eq.
  - now apply String.eqb_eq.
Qed.

Lemma stop_session_run (session_id : Z) (now : datetime) (u : User.t)
  (st : Store) (s : ParkingSession.t) (b : Bill) :
  lookup_session session_id st = Some s ->
  ParkingSession.user_id s = User.id u ->
  ParkingSession.status s = "active"%string ->
  billed (elapsed_minutes (ParkingSession.started_at s) now)
    (lookup_zone (ParkingSession.zone_id s) st) u b ->
  stop_session session_id now u st =
  (Ok (stopped_response s now b), stopped_store st s now b).
Proof.
  intros Hs Hu Ha Hb.
  unfold stop_session, lookup_session, lookup_zone in *. run.
  rewrite Hs, Hu, Z.eqb_refl, Ha. simpl.
  rewrite (billed_total _ _ _ st _ Hb). reflexivity.
Qed.

Lemma stop_session_failure (session_id : Z) (now : datetime) (u : User.t)
  (st : Store) :
  (forall r, fst (stop_session session_id now u st) <> Ok r) ->
  snd (stop_session session_id now u st) = st.
Proof.
  unfold stop_session. run. intros H.
  destruct (find _ (parking_sessions st)) as [s|]; [|reflexivity].
  destruct (negb _); [reflexivity|].
  destruct (negb _); [reflexivity|].
  pose proof (billing_store
    (elapsed_minutes (ParkingSession.started_at s) now)
    (find (fun row => Zone.id row =? ParkingSession.zone_id s) (zones st))
    u st) as Hst.
  revert H.
  destruct (billing _ _ u st) as [[b| | |] st1]; simpl in *; subst; auto.
  intros H. exfalso. eapply H. reflexivity.
Qed.

(** ** [start_session], [create_vehicle], [get_session], [deposit_to_wallet] *)

Lemma start_session_cases (plate : string) (zone_id : Z) (now : datetime)
  (u : User.t) (st : Store) :
  start_session plate zone_id now u st =
  match lookup_vehicle (User.id u) plate st with
  | None => (HTTPException HTTP_404_NOT_FOUND, st)
  | Some v =>
      match active_sessions (Vehicle.id v) st with
      | _ :: _ => (HTTPException HTTP_409_CONFLICT, st)
      | [] =>
          match lookup_zone zone_id st with
          | None => (HTTPException HTTP_404_NOT_FOUND, st)
          | Some _ =>
              (Ok (session_response (new_session st u v zone_id now) None),
               with_session st (new_session st u v zone_id now))
          end
      end
  end.
Proof.
  unfold start_session, lookup_vehicle, lookup_zone, active_sessions. run.
  destruct (find _ (vehicles st)) as [v|]; [|reflexivity].
  change (fun s : ParkingSession.t =>
            (ParkingSession.vehicle_id s =? Vehicle.id v)
            && (ParkingSession.status s =? "active")%string)
    with (is_active_for (Vehicle.id v)).
  destruct (find (is_active_for (Vehicle.id v)) (parking_sessions st))
    as [a|] eqn:Ha.
  - destruct (filter _ _) eqn:Hf; [|reflexivity].
    apply find_filter_nil in Hf. congruence.
  - apply find_filter_nil in Ha. rewrite Ha.
    destruct (find _ (zones st)); reflexivity.
Qed.

Lemma create_vehicle_cases (plate : string) (u : User.t) (st : Store) :
  create_vehicle plate u st =
  match lookup_vehicle (User.id u) plate st with
  | Some _ => (HTTPException HTTP_409_CONFLICT, st)
  | None =>
      (Ok (vehicle_response (new_vehicle st u plate)),
       with_vehicle st (new_vehicle st u plate))
  end.
Proof.
  unfold create_vehicle, lookup_vehicle. run.
  destruct (find _ (vehicles st)); reflexivity.
Qed.

Lemma get_session_store (session_id : Z) (u : User.t) (st : Store) :
  snd (get_session session_id u st) = st.
Proof.
  unfold get_session. run.
  destruct (find _ (parking_sessions st)) as [s|]; [|reflexivity].
  destruct (negb _); reflexivity.
Qed.

Lemma get_current_user_cases (x_api_key : string) (st : Store) :
  get_current_user x_api_key st = (HTTPException HTTP_401_UNAUTHORIZED, st)
  \/ exists u, get_current_user x_api_key st = (Ok u, st)
               /\ In u (users st) /\ User.api_key u = x_api_key.
Proof.
  unfold get_current_user. run.
  destruct (x_api_key =? "")%string; [now left|].
  destruct (find _ (users st)) as [u|] eqn:Hu; [|now left].
  right. exists u. apply find_some in Hu. destruct Hu as [HIn Hk].
  apply String.eqb_eq in Hk. auto.
Qed.

Lemma depends_current_user_cases (x_api_key : option string) (st : Store) :
  (snd (depends_current_user x_api_key st) = st
   /\ forall u, fst (depends_current_user x_api_key st) <> Ok u)
  \/ exists u, depends_current_user x_api_key st = (Ok u, st)
               /\ In u (users st).
Proof.
  destruct x_api_key as [k|]; simpl.
  - destruct (get_current_user_cases k st) as [H|[u [H [HIn _]]]].
    + left. rewrite H. split; [reflexivity|discriminate].
    + right. eauto.
  - left. split; [reflexivity|discriminate].
Qed.

(** With the database session, [deposit_to_wallet] credits the balance. *)
Lemma deposit_to_wallet_db (amount : Q) (u : User.t) (st : Store) :
  deposit_to_wallet amount DbSession u st =
  if Qle_bool amount 0 then (HTTPException HTTP_422_UNPROCESSABLE_ENTITY, st)
  else
    (Ok (User.balance u + amount)%Q,
     mkStore
       (update_row User.id (User.with_balance u (User.balance u + amount)%Q)
          (users st))
       (zones st) (vehicles st) (parking_sessions st)).
Proof.
  unfold deposit_to_wallet. destruct (Qle_bool amount 0); reflexivity.
Qed.

(** With the result of the handler, it never returns and never writes. *)
Lemma deposit_to_wallet_handler (amount : Q) (r : SessionResponse.t)
  (u : User.t) (st : Store) :
  deposit_to_wallet amount (HandlerResult r) u st =
  if Qle_bool amount 0 then (HTTPException HTTP_422_UNPROCESSABLE_ENTITY, st)
  else (AttributeError, st).
Proof.
  unfold deposit_to_wallet. destruct (Qle_bool amount 0); reflexivity.
Qed.

(** ** [seed_data] *)

Lemma filter_true {A} (l : list A) : filter (fun _ => true) l = l.
Proof. induction l as [|a l IH]; simpl; [reflexivity|now rewrite IH]. Qed.

Lemma seed_data_store (st : Store) :
  snd (seed_data st) =
  mkStore (seeded_users st) (seeded_zones st) (vehicles st)
    (parking_sessions st).
Proof.
  unfold seed_data, seeded_users, seeded_zones, add_user, add_zone. run.
  destruct (find _ (users st)) as [u|]; simpl; rewrite filter_true;
    destruct (zones st) as [|z zs] eqn:Hz; simpl; rewrite ?Hz.
  all: try reflexivity; rewrite <- Hz; now destruct st.
Qed.

(** ** One request *)

Lemma handle_deposit (x_api_key : option string) (now : datetime)
  (q : option Z) (amount : Q) (st : Store) :
  snd (handle x_api_key now (POST_wallet_deposit q amount) st) = st
  /\ forall resp,
       fst (handle x_api_key now (POST_wallet_deposit q amount) st) <> Ok resp.
Proof.
  unfold handle, bind.
  destruct (depends_current_user_cases x_api_key st) as [[Hs Hf]|[u [Hu _]]].
  - auth_failed Hf; (split; [reflexivity|discriminate]).
  - rewrite Hu. destruct q as [sid|]; [|split; [reflexivity|discriminate]].
    pose proof (get_session_store sid u st) as Hg.
    destruct (get_session sid u st) as [[r| | |] st1]; simpl in *; subst;
      try (split; [reflexivity|discriminate]).
    rewrite deposit_to_wallet_handler.
    destruct (Qle_bool amount 0); split; try reflexivity; discriminate.
Qed.

Lemma handle_transition (x_api_key : option string) (now : datetime)
  (req : Request) (st : Store) :
  transition st (snd (handle x_api_key now req st)).
Proof.
  destruct req as [| |plate| |plate zone_id|sid|sid|q amount].
  - apply transition_none.
  - unfold handle, bind.
    destruct (depends_current_user_cases x_api_key st) as [[Hs Hf]|[u [Hu _]]].
    + auth_failed Hf; apply transition_none.
    + rewrite Hu. apply transition_none.
  - unfold handle, bind.
    destruct (depends_current_user_cases x_api_key st) as [[Hs Hf]|[u [Hu _]]].
    + auth_failed Hf; apply transition_none.
    + rewrite Hu, create_vehicle_cases.
      destruct (lookup_vehicle (User.id u) plate st) eqn:Hv;
        [apply transition_none|].
      simpl. now apply transition_vehicle.
  - unfold handle, bind.
    destruct (depends_current_user_cases x_api_key st) as [[Hs Hf]|[u [Hu _]]].
    + auth_failed Hf; apply transition_none.
    + rewrite Hu. apply transition_none.
  - unfold handle, bind.
    destruct (depends_current_user_cases x_api_key st) as [[Hs Hf]|[u [Hu _]]].
    + auth_failed Hf; apply transition_none.
    + rewrite Hu, start_session_cases.
      destruct (lookup_vehicle (User.id u) plate st) as [v|];
        [|apply transition_none].
      destruct (active_sessions (Vehicle.id v) st) eqn:Ha;
        [|apply transition_none].
      destruct (lookup_zone zone_id st) as [z|] eqn:Hz;
        [|apply transition_none].
      simpl. now apply transition_start with z.
  - unfold handle, bind.
    destruct (depends_current_user_cases x_api_key st) as [[Hs Hf]|[u [Hu HIn]]].
    + auth_failed Hf; apply transition_none.
    + rewrite Hu.
      destruct (stop_session sid now u st) as [[r| | |] st1] eqn:Hstop;
        simpl.
      * apply stop_session_ok in Hstop.
        destruct Hstop as [s [b [Hs [Ho [Ha [Hb [-> _]]]]]]].
        now apply transition_stop with u sid.
      * pose proof (stop_session_failure sid now u st) as Hf.
        rewrite Hstop in Hf. simpl in Hf. rewrite Hf by discriminate.
        apply transition_none.
      * pose proof (stop_session_failure sid now u st) as Hf.
        rewrite Hstop in Hf. simpl in Hf. rewrite Hf by discriminate.
        apply transition_none.
      * pose proof (stop_session_failure sid now u st) as Hf.
        rewrite Hstop in Hf. simpl in Hf. rewrite Hf by discriminate.
        apply transition_none.
  - unfold handle, bind.
    destruct (depends_current_user_cases x_api_key st) as [[Hs Hf]|[u [Hu _]]].
    + auth_failed Hf; apply transition_none.
    + rewrite Hu. pose proof (get_session_store sid u st) as Hg.
      destruct (get_session sid u st) as [[r| | |] st1]; simpl in *; subst;
        apply transition_none.
  - destruct (handle_deposit x_api_key now q amount st) as [-> _].
    apply transition_none.
Qed.

Lemma reachable_ind_transition (P : Store -> Prop) (st0 : Store) :
  P st0 ->
  (forall st st', P st -> transition st st' -> P st') ->
  forall st, reachable st0 st -> P st.
Proof.
  intros H0 Hstep st Hr.
  induction Hr as [|st k now req Hr IH|st Hr IH]; [exact H0| |].
  - apply (Hstep st); [exact IH|apply handle_transition].
  - apply (Hstep st); [exact IH|].
    unfold lifespan. rewrite seed_data_store. apply transition_seed.
Qed.

(** ** Invariants of the store *)

Lemma billed_status (minutes : Z) (zone : option Zone.t) (u : User.t)
  (b : Bill) :
  billed minutes zone u b ->
  final_status b = "completed"%string \/ final_status b = "fined"%string
  \/ final_status b = "pending_payment"%string.
Proof. intros []; simpl; auto. Qed.

Lemma billed_not_active (minutes : Z) (zone : option Zone.t) (u : User.t)
  (b : Bill) :
  billed minutes zone u b -> (final_status b =? "active")%string = false.
Proof. intros []; reflexivity. Qed.

Lemma filter_map_shrinks {A} (p : A -> bool) (f : A -> A) (l : list A) :
  (forall x, p (f x) = true -> p x = true) ->
  (length (filter p (map f l)) <= length (filter p l))%nat.
Proof.
  intros H. induction l as [|a l IH]; simpl; [lia|].
  destruct (p (f a)) eqn:E.
  - rewrite (H a E). simpl. lia.
  - destruct (p a); simpl; lia.
Qed.

Lemma transition_single_active (st st' : Store) :
  single_active st -> transition st st' -> single_active st'.
Proof.
  intros Inv T vid. specialize (Inv vid).
  destruct T as [|u plate Hv|u v zone_id now z Ha Hz|u sid s now b HIn Hs Ho Hact Hb|];
    [exact Inv|exact Inv| | |exact Inv].
  - unfold active_sessions in *. simpl. rewrite filter_app, length_app. simpl.
    unfold is_active_for at 2. simpl.
    destruct (Vehicle.id v =? vid) eqn:E.
    + apply Z.eqb_eq in E. subst vid. rewrite Ha. simpl. lia.
    + simpl. lia.
  - unfold active_sessions in *. simpl. unfold update_row.
    etransitivity; [apply filter_map_shrinks|exact Inv].
    intros x. destruct (ParkingSession.id x =? _); [|auto].
    unfold is_active_for, finalize. simpl.
    rewrite (billed_not_active _ _ _ _ Hb), andb_false_r. discriminate.
Qed.

(** No zone is removed or changed. *)
Lemma transition_lookup_zone (st st' : Store) (zone_id : Z) (z : Zone.t) :
  transition st st' ->
  lookup_zone zone_id st = Some z -> lookup_zone zone_id st' = Some z.
Proof.
  intros [] Hz; auto.
  unfold lookup_zone, seeded_zones in *. simpl.
  destruct (zones st); [discriminate|exact Hz].
Qed.

Lemma transition_lookup_zone_present (st st' : Store) (zone_id : Z) :
  transition st st' ->
  lookup_zone zone_id st <> None -> lookup_zone zone_id st' <> None.
Proof.
  intros T Hz. destruct (lookup_zone zone_id st) as [z|] eqn:E; [|congruence].
  now rewrite (transition_lookup_zone _ _ _ _ T E).
Qed.

Lemma transition_zones_present (st st' : Store) :
  zones_present st -> transition st st' -> zones_present st'.
Proof.
  intros Inv T s' HIn.
  apply (transition_lookup_zone_present _ _ _ T).
  destruct T as [|u plate Hv|u v zone_id now z Ha Hz|u sid s now b HInu Hs Ho Hact Hb|].
  - now apply Inv.
  - now apply Inv.
  - simpl in HIn. apply in_app_or in HIn. destruct HIn as [HIn|[<-|[]]].
    + now apply Inv.
    + simpl. congruence.
  - simpl in HIn. apply in_update_row in HIn. destruct HIn as [->|HIn].
    + simpl. apply Inv. unfold lookup_session in Hs.
      now apply find_some in Hs.
    + now apply Inv.
  - now apply Inv.
Qed.

Lemma billed_balance_nonneg (minutes : Z) (zone : option Zone.t) (u : User.t)
  (b : Bill) :
  billed minutes zone u b ->
  (0 <= User.balance u)%Q -> (0 <= User.balance (billed_user b))%Q.
Proof.
  intros Hb Hu. destruct Hb; simpl; auto. lra.
Qed.

Lemma transition_balances_nonneg (st st' : Store) :
  balances_nonneg st -> transition st st' -> balances_nonneg st'.
Proof.
  intros Inv T u' HIn.
  destruct T as [|u plate Hv|u v zone_id now z Ha Hz|u sid s now b HInu Hs Ho Hact Hb|].
  - now apply Inv.
  - now apply Inv.
  - now apply Inv.
  - simpl in HIn. apply in_update_row in HIn. destruct HIn as [->|HIn].
    + apply (billed_balance_nonneg _ _ _ _ Hb). now apply Inv.
    + now apply Inv.
  - simpl in HIn. unfold seeded_users in HIn.
    destruct (find _ (users st)); [now apply Inv|].
    apply in_app_or in HIn. destruct HIn as [HIn|[<-|[]]]; [now apply Inv|].
    simpl. lra.
Qed.

Lemma transition_users_pk_unique (st st' : Store) :
  users_pk_unique st -> transition st st' -> users_pk_unique st'.
Proof.
  unfold users_pk_unique. intros Inv T.
  destruct T as [|u plate Hv|u v zone_id now z Ha Hz|u sid s now b HInu Hs Ho Hact Hb|];
    simpl; auto.
  - now rewrite update_row_map_id.
  - unfold seeded_users. destruct (find _ (users st)); [exact Inv|].
    rewrite map_app. simpl. apply NoDup_app_fresh; [exact Inv|].
    intros HIn. apply in_map_iff in HIn. destruct HIn as [u [E HIn]].
    apply (next_id_fresh User.id) in HIn. lia.
Qed.

(** A stop that does not debit leaves the table of users as it was. *)
Lemma stopped_store_users (st : Store) (s : ParkingSession.t) (now : datetime)
  (b : Bill) (u : User.t) :
  users_pk_unique st -> In u (users st) -> billed_user b = u ->
  users (stopped_store st s now b) = users st.
Proof.
  intros Hpk HIn Hb. simpl. rewrite Hb. now apply update_row_same.
Qed.

Lemma lookup_session_stopped (st : Store) (s : ParkingSession.t)
  (now : datetime) (b : Bill) (session_id : Z) :
  lookup_session session_id st = Some s ->
  lookup_session session_id (stopped_store st s now b) =
  Some (finalize s now (elapsed_minutes (ParkingSession.started_at s) now)
          (cost b) (final_status b)).
Proof.
  unfold lookup_session. intros Hs. simpl.
  rewrite find_update_row, Hs. simpl. now rewrite Z.eqb_refl.
Qed.

(** ** The concrete stores *)

Example seeded_store :
  seeded =
  mkStore [demo_user]
    [Zone.mk 1 "A" (3 # 2) 120; Zone.mk 2 "B" 1 180] [] [].
Proof. reflexivity. Qed.

Example st_parked_store :
  st_parked =
  mkStore [demo_user]
    [Zone.mk 1 "A" (3 # 2) 120; Zone.mk 2 "B" 1 180]
    [Vehicle.mk 1 1 "ABC123"]
    [ParkingSession.mk 1 1 1 1 0 None None None "active"].
Proof. reflexivity. Qed.

(** A new database file, started once, is the seeded store. *)
Lemma reachable_seeded : reachable empty_db seeded.
Proof. apply (reachable_restart empty_db empty_db), reachable_init. Qed.

Lemma reachable_st_parked : reachable seeded st_parked.
Proof.
  unfold st_parked. apply reachable_step.
  unfold st_vehicle. apply reachable_step.
  apply reachable_init.
Qed.

Lemma single_active_seeded : single_active seeded.
Proof. intros vid. simpl. lia. Qed.

(** ** Sessions: one active session per vehicle *)

(** C1.  In every store reached from a store with at most one active
    session per vehicle, each vehicle has at most one active session.
    There, once the vehicle of [start_session] is resolved: if it has an
    active session the call fails with 409 and writes nothing; if it has
    none, the call fails with 404 on an unknown zone and otherwise appends
    one session, with [status = "active"], which is then the only active
    session of the vehicle. *)
Theorem single_active_session_invariant :
  forall st0 st,
    single_active st0 -> reachable st0 st ->
    single_active st
    /\ forall plate zone_id now u v,
         lookup_vehicle (User.id u) plate st = Some v ->
         (active_sessions (Vehicle.id v) st <> [] ->
          start_session plate zone_id now u st =
          (HTTPException HTTP_409_CONFLICT, st))
         /\ (active_sessions (Vehicle.id v) st = [] ->
             lookup_zone zone_id st = None ->
             start_session plate zone_id now u st =
             (HTTPException HTTP_404_NOT_FOUND, st))
         /\ (active_sessions (Vehicle.id v) st = [] ->
             lookup_zone zone_id st <> None ->
             let s := new_session st u v zone_id now in
             start_session plate zone_id now u st =
             (Ok (session_response s None), with_session st s)
             /\ ParkingSession.status s = "active"%string
             /\ ParkingSession.vehicle_id s = Vehicle.id v
             /\ active_sessions (Vehicle.id v) (with_session st s) = [s]
             /\ single_active (with_session st s)).
Proof.
  intros st0 st H0 Hr.
  assert (single_active st) as Hinv.
  { revert st Hr. apply reachable_ind_transition; [exact H0|].
    intros st st' H T. now apply transition_single_active with st. }
  split; [exact Hinv|].
  intros plate zone_id now u v Hv. split; [|split].
  - intros Ha. rewrite start_session_cases, Hv.
    destruct (active_sessions (Vehicle.id v) st); [congruence|reflexivity].
  - intros Ha Hz. now rewrite start_session_cases, Hv, Ha, Hz.
  - intros Ha Hz s.
    destruct (lookup_zone zone_id st) as [z|] eqn:Ez; [|congruence].
    split; [now rewrite start_session_cases, Hv, Ha, Ez|].
    split; [reflexivity|]. split; [reflexivity|]. split.
    + unfold active_sessions in *. simpl. rewrite filter_app, Ha. simpl.
      unfold is_active_for. simpl. now rewrite Z.eqb_refl.
    + apply transition_single_active with st; [exact Hinv|].
      now apply transition_start with z.
Qed.

Lemma single_active_session_invariant_witness :
  single_active st_parked
  /\ start_session "ABC123" 2 60000000 demo_user st_parked =
     (HTTPException 409, st_parked).
Proof.
  destruct (single_active_session_invariant seeded st_parked
              single_active_seeded reachable_st_parked) as [Hinv Hstart].
  split; [exact Hinv|].
  destruct (Hstart "ABC123"%string 2 60000000 demo_user (Vehicle.mk 1 1 "ABC123")
              eq_refl) as [Hconflict _].
  apply Hconflict. vm_compute. discriminate.
Defined.

(** ** Billing: the minutes *)

Lemma elapsed_minutes_div (started_at ended_at : datetime) :
  elapsed_minutes started_at ended_at =
  - ((- (ended_at - started_at)) / 60000000).
Proof.
  unfold elapsed_minutes, math_ceil, total_seconds.
  set (d := ended_at - started_at).
  assert (inject_Z d / 1000000 / 60 == d # 60000000)%Q as E.
  { unfold Qeq, Qdiv, Qmult, Qinv, inject_Z. simpl. lia. }
  rewrite (Qceiling_comp _ _ E). reflexivity.
Qed.

(** [elapsed_minutes] is the least number of whole minutes that covers the
    elapsed microseconds. *)
Lemma elapsed_minutes_bounds (started_at ended_at : datetime) :
  let m := elapsed_minutes started_at ended_at in
  (m - 1) * 60000000 < ended_at - started_at <= m * 60000000.
Proof.
  intros m. subst m. rewrite elapsed_minutes_div.
  set (d := ended_at - started_at).
  pose proof (Z.div_mod (- d) 60000000 ltac:(lia)) as E.
  pose proof (Z.mod_pos_bound (- d) 60000000 ltac:(lia)) as B.
  lia.
Qed.

Lemma elapsed_minutes_unique (started_at ended_at : datetime) (m : Z) :
  (m - 1) * 60000000 < ended_at - started_at <= m * 60000000 ->
  elapsed_minutes started_at ended_at = m.
Proof.
  intros H. pose proof (elapsed_minutes_bounds started_at ended_at) as B.
  simpl in B. lia.
Qed.

(** C2, as amended.  A stop that goes through bills
    [ceiling(duration_seconds / 60)] minutes, where [duration_seconds] is the
    elapsed time [now - started_at] in seconds with its fractional part (the
    microseconds), not cut to whole seconds: the minutes are the least [m]
    with [duration <= m] minutes.  So a started minute counts in full (181 s
    give 4), and any positive duration gives at least 1.  The same number is
    on the answer and on the stored row. *)
Theorem stop_minutes_ceiling :
  forall st st' session_id now u r,
    stop_session session_id now u st = (Ok r, st') ->
    exists s m,
      lookup_session session_id st = Some s
      /\ SessionResponse.minutes r = Some m
      /\ (exists s', lookup_session session_id st' = Some s'
                     /\ ParkingSession.minutes s' = Some m)
      /\ m = Qceiling
               (inject_Z (now - ParkingSession.started_at s) / 1000000 / 60)
      /\ (m - 1) * 60000000 < now - ParkingSession.started_at s
         <= m * 60000000
      /\ (0 < now - ParkingSession.started_at s -> 1 <= m)
      /\ (now - ParkingSession.started_at s = 181 * 1000000 -> m = 4).
Proof.
  intros st st' sid now u r H.
  apply stop_session_ok in H.
  destruct H as [s [b [Hs [Ho [Ha [Hb [-> ->]]]]]]].
  exists s, (elapsed_minutes (ParkingSession.started_at s) now).
  pose proof (elapsed_minutes_bounds (ParkingSession.started_at s) now) as B.
  simpl in B.
  repeat split; try lia; auto.
  eexists. split; [now apply lookup_session_stopped|reflexivity].
Qed.

Lemma stop_minutes_ceiling_witness :
  exists s m,
    lookup_session 1 st_parked = Some s
    /\ m = 4
    /\ (m - 1) * 60000000 < 180500000 - ParkingSession.started_at s
       <= m * 60000000.
Proof.
  destruct (stop_minutes_ceiling st_parked
              (snd (stop_session 1 180500000 demo_user st_parked))
              1 180500000 demo_user
              (stopped_response (ParkingSession.mk 1 1 1 1 0 None None None "active")
                 180500000
                 (mkBill (inject_Z 4 * (3 # 2)) (inject_Z 4 * (3 # 2)) "completed"
                    (User.with_balance demo_user (300 - inject_Z 4 * (3 # 2)))))
              eq_refl)
    as [s [m [Hs [Hm [_ [_ [Hb _]]]]]]].
  exists s, m. split; [exact Hs|]. split; [|exact Hb].
  vm_compute in Hm. congruence.
Defined.

(** C2, as the claim words it, fails: after 180.5 s the code bills 4
    minutes, and the ceiling over whole seconds is 3. *)
Lemma whole_seconds_counterexample :
  exists r st',
    stop_session 1 180500000 demo_user st_parked = (Ok r, st')
    /\ SessionResponse.minutes r = Some 4
    /\ minutes_of_whole_seconds 0 180500000 = 3
    /\ SessionResponse.minutes r
       <> Some (minutes_of_whole_seconds
                  (SessionResponse.started_at r) 180500000).
Proof.
  eexists. eexists. split; [vm_compute; reflexivity|].
  split; [reflexivity|]. split; [reflexivity|].
  vm_compute. discriminate.
Qed.

(** ** Billing: the three policies *)

(** The bill of a stop past the grace period, in a zone that is there. *)
Lemma billed_charged (m : Z) (z : Zone.t) (u : User.t) (b : Bill) :
  billed m (Some z) u b -> 3 < m ->
  let c := (inject_Z m * Zone.rate_per_min z)%Q in
  (Zone.max_minutes z < m /\ b = mkBill c (c + 100) "fined" u)
  \/ (m <= Zone.max_minutes z /\ (User.balance u < c)%Q
      /\ b = mkBill c c "pending_payment" u)
  \/ (m <= Zone.max_minutes z /\ (c <= User.balance u)%Q
      /\ b = mkBill c c "completed"
               (User.with_balance u (User.balance u - c))).
Proof.
  intros Hb H3. simpl.
  inversion Hb as [Hle|z0 Hz0 ? ?|z0 Hz0 ? ? ?|z0 Hz0 ? ? ?]; subst;
    try lia; injection Hz0 as <-; auto 6.
Qed.

Lemma users_pk_unique_poor : users_pk_unique st_poor_parked.
Proof. repeat constructor; simpl; tauto. Qed.

Lemma users_pk_unique_parked : users_pk_unique st_parked.
Proof. repeat constructor; simpl; tauto. Qed.

(** C3.  A stop that goes through with at most 3 minutes: the answer and
    the stored row have [cost = 0] and [status = "completed"]; the local
    [cost_total] is 0 for any zone, present or not (the answer carries it
    only for a fined session, so there it is [None]); and no row of [users]
    changes. *)
Theorem stop_grace_period :
  forall st st' session_id now u r m,
    users_pk_unique st -> In u (users st) ->
    stop_session session_id now u st = (Ok r, st') ->
    SessionResponse.minutes r = Some m -> m <= 3 ->
    SessionResponse.cost r = Some 0%Q
    /\ SessionResponse.status r = "completed"%string
    /\ SessionResponse.cost_total r = None
    /\ (forall zone, billing m zone u st = (Ok (mkBill 0 0 "completed" u), st))
    /\ (exists s', lookup_session session_id st' = Some s'
                   /\ ParkingSession.cost s' = Some 0%Q
                   /\ ParkingSession.status s' = "completed"%string
                   /\ ParkingSession.minutes s' = Some m
                   /\ ParkingSession.ended_at s' = Some now)
    /\ users st' = users st.
Proof.
  intros st st' sid now u r m Hpk HIn H Hm Hle.
  apply stop_session_ok in H.
  destruct H as [s [b [Hs [Ho [Ha [Hb [-> ->]]]]]]].
  simpl in Hm. injection Hm as Hm. rewrite Hm in Hb.
  assert (b = mkBill 0 0 "completed" u) as ->.
  { destruct Hb; try lia. reflexivity. }
  split; [reflexivity|]. split; [reflexivity|]. split; [reflexivity|].
  split.
  { intros zone. apply billed_total. now constructor. }
  split.
  { eexists. split; [now apply lookup_session_stopped|].
    simpl. rewrite Hm. auto. }
  now apply stopped_store_users with u.
Qed.

Lemma stop_grace_period_witness :
  exists r st',
    stop_session 1 180000000 demo_user st_parked = (Ok r, st')
    /\ SessionResponse.minutes r = Some 3
    /\ SessionResponse.cost r = Some 0%Q
    /\ SessionResponse.status r = "completed"%string
    /\ users st' = users st_parked.
Proof.
  eexists. eexists. split; [vm_compute; reflexivity|].
  split; [reflexivity|].
  destruct (stop_grace_period st_parked _ 1 180000000 demo_user _ 3
              users_pk_unique_parked (or_introl eq_refl) eq_refl eq_refl
              ltac:(lia))
    as [Hcost [Hstatus [_ [_ [_ Husers]]]]].
  split; [exact Hcost|]. split; [exact Hstatus|exact Husers].
Defined.

(** C4.  A stop that goes through with more than 3 minutes and more than
    the zone's [max_minutes]: [status = "fined"], the stored and answered
    [cost] is [minutes * rate_per_min], the answer's [cost_total] is
    [cost + 100], and no row of [users] changes.  Nothing is asked of the
    balance: the fine comes before the balance test, and holds as well when
    [balance < cost]. *)
Theorem stop_fined :
  forall st st' session_id now u r m z,
    users_pk_unique st -> In u (users st) ->
    stop_session session_id now u st = (Ok r, st') ->
    SessionResponse.minutes r = Some m ->
    lookup_zone (SessionResponse.zone_id r) st = Some z ->
    3 < m -> Zone.max_minutes z < m ->
    SessionResponse.status r = "fined"%string
    /\ SessionResponse.cost r = Some (inject_Z m * Zone.rate_per_min z)%Q
    /\ SessionResponse.cost_total r =
       Some (inject_Z m * Zone.rate_per_min z + 100)%Q
    /\ (exists s', lookup_session session_id st' = Some s'
                   /\ ParkingSession.status s' = "fined"%string
                   /\ ParkingSession.cost s' =
                      Some (inject_Z m * Zone.rate_per_min z)%Q
                   /\ ParkingSession.minutes s' = Some m)
    /\ users st' = users st.
Proof.
  intros st st' sid now u r m z Hpk HIn H Hm Hz H3 Hmax.
  apply stop_session_ok in H.
  destruct H as [s [b [Hs [Ho [Ha [Hb [-> ->]]]]]]].
  simpl in Hm, Hz. injection Hm as Hm. rewrite Hm, Hz in Hb.
  assert (b = mkBill (inject_Z m * Zone.rate_per_min z)
                (inject_Z m * Zone.rate_per_min z + 100) "fined" u) as ->.
  { destruct (billed_charged _ _ _ _ Hb H3) as [[_ E]|[[? _]|[? _]]];
      [exact E|lia|lia]. }
  split; [reflexivity|]. split; [reflexivity|]. split; [reflexivity|].
  split.
  { eexists. split; [now apply lookup_session_stopped|].
    simpl. rewrite Hm. auto. }
  now apply stopped_store_users with u.
Qed.

(** Zone A allows 120 minutes; after 121 the poor user, who could not pay
    the cost, is fined and keeps a balance of 5. *)
Lemma stop_fined_witness :
  exists r st',
    stop_session 1 (121 * 60000000) poor_user st_poor_parked = (Ok r, st')
    /\ (User.balance poor_user < inject_Z 121 * (3 # 2))%Q
    /\ SessionResponse.status r = "fined"%string
    /\ SessionResponse.cost_total r = Some (inject_Z 121 * (3 # 2) + 100)%Q
    /\ users st' = [poor_user].
Proof.
  eexists. eexists. split; [vm_compute; reflexivity|].
  split; [reflexivity|].
  destruct (stop_fined st_poor_parked _ 1 (121 * 60000000) poor_user _ 121
              (Zone.mk 1 "A" (3 # 2) 120)
              users_pk_unique_poor (or_introl eq_refl) eq_refl eq_refl eq_refl
              ltac:(lia) ltac:(simpl; lia))
    as [Hstatus [_ [Htotal [_ Husers]]]].
  split; [exact Hstatus|]. split; [exact Htotal|exact Husers].
Defined.

(** C5.  A stop that goes through with more than 3 minutes, within the
    zone's [max_minutes], by a user whose balance is below
    [cost = minutes * rate_per_min]: [status = "pending_payment"], the cost
    is recorded on the session, and no row of [users] changes. *)
Theorem stop_pending_payment :
  forall st st' session_id now u r m z,
    users_pk_unique st -> In u (users st) ->
    stop_session session_id now u st = (Ok r, st') ->
    SessionResponse.minutes r = Some m ->
    lookup_zone (SessionResponse.zone_id r) st = Some z ->
    3 < m -> m <= Zone.max_minutes z ->
    (User.balance u < inject_Z m * Zone.rate_per_min z)%Q ->
    SessionResponse.status r = "pending_payment"%string
    /\ SessionResponse.cost r = Some (inject_Z m * Zone.rate_per_min z)%Q
    /\ (exists s', lookup_session session_id st' = Some s'
                   /\ ParkingSession.status s' = "pending_payment"%string
                   /\ ParkingSession.cost s' =
                      Some (inject_Z m * Zone.rate_per_min z)%Q
                   /\ ParkingSession.minutes s' = Some m)
    /\ users st' = users st.
Proof.
  intros st st' sid now u r m z Hpk HIn H Hm Hz H3 Hmax Hbal.
  apply stop_session_ok in H.
  destruct H as [s [b [Hs [Ho [Ha [Hb [-> ->]]]]]]].
  simpl in Hm, Hz. injection Hm as Hm. rewrite Hm, Hz in Hb.
  assert (b = mkBill (inject_Z m * Zone.rate_per_min z)
                (inject_Z m * Zone.rate_per_min z) "pending_payment" u) as ->.
  { destruct (billed_charged _ _ _ _ Hb H3) as [[? _]|[[_ [_ E]]|[_ [? _]]]];
      [lia|exact E|lra]. }
  split; [reflexivity|]. split; [reflexivity|].
  split.
  { eexists. split; [now apply lookup_session_stopped|].
    simpl. rewrite Hm. auto. }
  now apply stopped_store_users with u.
Qed.

(** Balance 5, 4 minutes in zone A at 1.5: the cost is 6 and 5 stays 5. *)
Lemma stop_pending_payment_witness :
  exists r st',
    stop_session 1 181000000 poor_user st_poor_parked = (Ok r, st')
    /\ (inject_Z 4 * (3 # 2) == 6)%Q
    /\ SessionResponse.status r = "pending_payment"%string
    /\ users st' = [poor_user]
    /\ User.balance poor_user = 5%Q.
Proof.
  eexists. eexists. split; [vm_compute; reflexivity|].
  split; [reflexivity|].
  destruct (stop_pending_payment st_poor_parked _ 1 181000000 poor_user _ 4
              (Zone.mk 1 "A" (3 # 2) 120)
              users_pk_unique_poor (or_introl eq_refl) eq_refl eq_refl eq_refl
              ltac:(lia) ltac:(simpl; lia) ltac:(reflexivity))
    as [Hstatus [_ [_ Husers]]].
  split; [exact Hstatus|]. split; [exact Husers|reflexivity].
Defined.

(** ** The balance *)

Lemma reachable_users_pk_unique (st0 st : Store) :
  users_pk_unique st0 -> reachable st0 st -> users_pk_unique st.
Proof.
  intros H0. apply reachable_ind_transition; [exact H0|].
  intros s s' H T. now apply transition_users_pk_unique with s.
Qed.

Lemma reachable_balances_nonneg (st0 st : Store) :
  balances_nonneg st0 -> reachable st0 st -> balances_nonneg st.
Proof.
  intros H0. apply reachable_ind_transition; [exact H0|].
  intros s s' H T. now apply transition_balances_nonneg with s.
Qed.

Lemma handle_users_unless_stop (x_api_key : option string) (now : datetime)
  (req : Request) (st : Store) :
  (forall session_id, req <> POST_sessions_stop session_id) ->
  users (snd (handle x_api_key now req st)) = users st.
Proof.
  intros Hreq.
  destruct req as [| |plate| |plate zone_id|sid|sid|q amount];
    try reflexivity; try (now destruct (Hreq sid)).
  - unfold handle, bind.
    destruct (depends_current_user_cases x_api_key st) as [[Hs Hf]|[u [Hu _]]].
    + auth_failed Hf; reflexivity.
    + now rewrite Hu.
  - unfold handle, bind.
    destruct (depends_current_user_cases x_api_key st) as [[Hs Hf]|[u [Hu _]]].
    + auth_failed Hf; reflexivity.
    + rewrite Hu, create_vehicle_cases.
      destruct (lookup_vehicle (User.id u) plate st); reflexivity.
  - unfold handle, bind.
    destruct (depends_current_user_cases x_api_key st) as [[Hs Hf]|[u [Hu _]]].
    + auth_failed Hf; reflexivity.
    + now rewrite Hu.
  - unfold handle, bind.
    destruct (depends_current_user_cases x_api_key st) as [[Hs Hf]|[u [Hu _]]].
    + auth_failed Hf; reflexivity.
    + rewrite Hu, start_session_cases.
      destruct (lookup_vehicle (User.id u) plate st) as [v|]; [|reflexivity].
      destruct (active_sessions (Vehicle.id v) st); [|reflexivity].
      destruct (lookup_zone zone_id st); reflexivity.
  - unfold handle, bind.
    destruct (depends_current_user_cases x_api_key st) as [[Hs Hf]|[u [Hu _]]].
    + auth_failed Hf; reflexivity.
    + rewrite Hu. pose proof (get_session_store sid u st) as Hg.
      destruct (get_session sid u st) as [[r| | |] st1]; simpl in *; subst;
        reflexivity.
  - now destruct (handle_deposit x_api_key now q amount st) as [-> _].
Qed.

Lemma balances_nonneg_seeded : balances_nonneg seeded.
Proof. intros u [<-|[]]. simpl. lra. Qed.

Lemma users_pk_unique_seeded : users_pk_unique seeded.
Proof. repeat constructor; simpl; tauto. Qed.

Lemma reachable_st_paid : reachable seeded st_paid.
Proof. unfold st_paid. apply reachable_step. apply reachable_st_parked. Qed.

(** C6.  In every store reached from a store whose balances are not
    negative (and whose users have distinct keys): no balance is negative;
    a request other than a stop leaves [users] as it is; a stop that goes
    through leaves [users] as it is when the session ends fined or pending,
    and when it changes [users] the session ended completed, past the grace
    period, with [cost = minutes * rate_per_min <= balance], and the row of
    the caller got [balance - cost]; run with the database session,
    [deposit_to_wallet] changes [users] only for a positive amount, giving
    the caller [balance + amount], and keeps the balances non-negative. *)
Theorem balance_debited_only_on_completion :
  forall st0 st,
    balances_nonneg st0 -> users_pk_unique st0 -> reachable st0 st ->
    balances_nonneg st
    /\ (forall x_api_key now req,
          (forall session_id, req <> POST_sessions_stop session_id) ->
          users (snd (handle x_api_key now req st)) = users st)
    /\ (forall session_id now u r st',
          In u (users st) ->
          stop_session session_id now u st = (Ok r, st') ->
          (SessionResponse.status r = "fined"%string
           \/ SessionResponse.status r = "pending_payment"%string ->
           users st' = users st)
          /\ (users st' <> users st ->
              SessionResponse.status r = "completed"%string
              /\ exists m z,
                   SessionResponse.minutes r = Some m /\ 3 < m
                   /\ lookup_zone (SessionResponse.zone_id r) st = Some z
                   /\ SessionResponse.cost r =
                      Some (inject_Z m * Zone.rate_per_min z)%Q
                   /\ (inject_Z m * Zone.rate_per_min z <= User.balance u)%Q
                   /\ users st' =
                      update_row User.id
                        (User.with_balance u
                           (User.balance u
                            - inject_Z m * Zone.rate_per_min z)%Q)
                        (users st)))
    /\ (forall amount u,
          In u (users st) ->
          let st' := snd (deposit_to_wallet amount DbSession u st) in
          balances_nonneg st'
          /\ (users st' <> users st ->
              (0 < amount)%Q
              /\ users st' =
                 update_row User.id
                   (User.with_balance u (User.balance u + amount)%Q)
                   (users st))).
Proof.
  intros st0 st Hnn0 Hpk0 Hr.
  pose proof (reachable_balances_nonneg _ _ Hnn0 Hr) as Hnn.
  pose proof (reachable_users_pk_unique _ _ Hpk0 Hr) as Hpk.
  split; [exact Hnn|]. split; [intros; now apply handle_users_unless_stop|].
  split.
  - intros sid now u r st' HIn H.
    apply stop_session_ok in H.
    destruct H as [s [b [Hs [Ho [Ha [Hb [-> ->]]]]]]].
    set (m := elapsed_minutes (ParkingSession.started_at s) now) in *.
    destruct (Z_le_gt_dec m 3) as [Hle|Hgt].
    + assert (b = mkBill 0 0 "completed" u) as ->
        by (destruct Hb; try lia; reflexivity).
      split; [intros _|intros Hch; exfalso; apply Hch];
        now apply stopped_store_users with u.
    + destruct (lookup_zone (ParkingSession.zone_id s) st) as [z|] eqn:Hz;
        [|inversion Hb; subst; try lia; discriminate].
      destruct (billed_charged _ _ _ _ Hb ltac:(lia))
        as [[Hmax ->]|[[Hmax [Hbal ->]]|[Hmax [Hbal ->]]]].
      * split; [intros _|intros Hch; exfalso; apply Hch];
          now apply stopped_store_users with u.
      * split; [intros _|intros Hch; exfalso; apply Hch];
          now apply stopped_store_users with u.
      * split; [simpl; intros [E|E]; discriminate|].
        intros _. split; [reflexivity|].
        exists m, z. simpl. repeat split; auto; lia.
  - intros amount u HIn st'. subst st'. rewrite deposit_to_wallet_db.
    destruct (Qle_bool amount 0) eqn:E; simpl.
    + split; [exact Hnn|]. intros Hch. now destruct Hch.
    + assert (0 < amount)%Q as Hpos.
      { apply Qnot_le_lt. intros Hle. apply Qle_bool_iff in Hle. congruence. }
      split; [|intros _; split; [exact Hpos|reflexivity]].
      intros u' HIn'. simpl in HIn'. apply in_update_row in HIn'.
      destruct HIn' as [->|HIn']; [|now apply Hnn].
      simpl. specialize (Hnn u HIn). lra.
Qed.

Lemma balance_debited_only_on_completion_witness :
  balances_nonneg st_paid
  /\ users st_paid =
     [User.with_balance demo_user (300 - inject_Z 4 * (3 # 2))]
  /\ users (snd (handle (Some "testkey"%string) 300000000
                   (POST_wallet_deposit (Some 1) 50) st_paid))
     = users st_paid.
Proof.
  destruct (balance_debited_only_on_completion seeded st_paid
              balances_nonneg_seeded users_pk_unique_seeded reachable_st_paid)
    as [Hnn [Hother _]].
  split; [exact Hnn|]. split; [reflexivity|].
  apply Hother. intros sid. discriminate.
Defined.

(** ** The failures of [stop_session] *)

(** C7.  [stop_session] answers 404 when the session is not there (the key
    being one the driver can bind); else 403 when it is another user's,
    whatever its status; else 422 when its status is not ["active"].  A stop that does not go through leaves the
    store as it is.  After a stop that went through, a stop of the same
    session by the same user answers 422 and leaves the store as the first
    one left it. *)
Theorem stop_failure_order :
  forall st session_id now u,
    (sqlite_integer session_id ->
     lookup_session session_id st = None ->
     stop_session session_id now u st =
     (HTTPException HTTP_404_NOT_FOUND, st))
    /\ (forall s,
          lookup_session session_id st = Some s ->
          ParkingSession.user_id s <> User.id u ->
          stop_session session_id now u st =
          (HTTPException HTTP_403_FORBIDDEN, st))
    /\ (forall s,
          lookup_session session_id st = Some s ->
          ParkingSession.user_id s = User.id u ->
          ParkingSession.status s <> "active"%string ->
          stop_session session_id now u st =
          (HTTPException HTTP_422_UNPROCESSABLE_ENTITY, st))
    /\ ((forall r, fst (stop_session session_id now u st) <> Ok r) ->
        snd (stop_session session_id now u st) = st)
    /\ (forall r st1,
          stop_session session_id now u st = (Ok r, st1) ->
          forall now',
            stop_session session_id now' u st1 =
            (HTTPException HTTP_422_UNPROCESSABLE_ENTITY, st1)).
Proof.
  intros st sid now u.
  assert (forall st' t s,
            lookup_session sid st' = Some s ->
            ParkingSession.user_id s = User.id u ->
            ParkingSession.status s <> "active"%string ->
            stop_session sid t u st' =
            (HTTPException HTTP_422_UNPROCESSABLE_ENTITY, st')) as H422.
  { intros st' t s Hs Ho Ha. unfold stop_session, lookup_session in *. run.
    rewrite Hs, Ho, Z.eqb_refl. simpl.
    apply String.eqb_neq in Ha. now rewrite Ha. }
  split; [|split; [|split; [|split]]].
  - intros _ Hs. unfold stop_session, lookup_session in *. run.
    now rewrite Hs.
  - intros s Hs Ho. unfold stop_session, lookup_session in *. run.
    rewrite Hs. apply Z.eqb_neq in Ho. now rewrite Ho.
  - intros s. apply H422.
  - apply stop_session_failure.
  - intros r st1 H now'. apply stop_session_ok in H.
    destruct H as [s [b [Hs [Ho [Ha [Hb [-> _]]]]]]].
    eapply H422.
    + now apply lookup_session_stopped.
    + exact Ho.
    + simpl. apply String.eqb_neq. now apply billed_not_active with (1 := Hb).
Qed.

Lemma stop_failure_order_witness :
  stop_session 9 0 demo_user st_parked = (HTTPException 404, st_parked)
  /\ stop_session 1 0 other_user st_paid = (HTTPException 403, st_paid)
  /\ stop_session 1 300000000 demo_user st_paid = (HTTPException 422, st_paid).
Proof.
  split; [|split].
  - destruct (stop_failure_order st_parked 9 0 demo_user) as [H404 _].
    apply H404; [unfold sqlite_integer; lia|reflexivity].
  - destruct (stop_failure_order st_paid 1 0 other_user) as [_ [H403 _]].
    eapply H403; [reflexivity|]. simpl. discriminate.
  - destruct (stop_failure_order st_parked 1 240000000 demo_user)
      as [_ [_ [_ [_ Hagain]]]].
    eapply (Hagain _ st_paid). vm_compute. reflexivity.
Defined.

(** ** Vehicles *)

(** C8.  [create_vehicle] answers 409 exactly when the store has a vehicle
    of the caller with the same plate, compared as strings; then it writes
    nothing.  Plates of other users do not count.  In the other case it
    appends one vehicle, of the caller, with the plate and a new key, and
    returns it. *)
Theorem create_vehicle_conflict_iff :
  forall st plate u,
    (fst (create_vehicle plate u st) = HTTPException HTTP_409_CONFLICT
     <-> exists v, In v (vehicles st)
                   /\ Vehicle.user_id v = User.id u
                   /\ Vehicle.plate v = plate)
    /\ (fst (create_vehicle plate u st) = HTTPException HTTP_409_CONFLICT ->
        snd (create_vehicle plate u st) = st)
    /\ ((forall v, In v (vehicles st) -> Vehicle.plate v = plate ->
                   Vehicle.user_id v <> User.id u) ->
        fst (create_vehicle plate u st) <> HTTPException HTTP_409_CONFLICT)
    /\ (fst (create_vehicle plate u st) <> HTTPException HTTP_409_CONFLICT ->
        let v := new_vehicle st u plate in
        create_vehicle plate u st = (Ok (vehicle_response v), with_vehicle st v)
        /\ vehicles (with_vehicle st v) = vehicles st ++ [v]
        /\ Vehicle.user_id v = User.id u
        /\ Vehicle.plate v = plate
        /\ (forall w, In w (vehicles st) -> Vehicle.id w < Vehicle.id v)
        /\ lookup_vehicle (User.id u) plate (with_vehicle st v) = Some v
        /\ users (with_vehicle st v) = users st
        /\ zones (with_vehicle st v) = zones st
        /\ parking_sessions (with_vehicle st v) = parking_sessions st).
Proof.
  intros st plate u.
  assert (fst (create_vehicle plate u st) = HTTPException HTTP_409_CONFLICT
          <-> exists v, In v (vehicles st)
                        /\ Vehicle.user_id v = User.id u
                        /\ Vehicle.plate v = plate) as Hiff.
  { rewrite create_vehicle_cases. unfold lookup_vehicle.
    destruct (find _ (vehicles st)) as [v|] eqn:Hv; simpl.
    - split; [intros _|reflexivity].
      apply find_some in Hv. destruct Hv as [HIn Hp].
      apply andb_true_iff in Hp. destruct Hp as [Hu Hp].
      apply Z.eqb_eq in Hu. apply String.eqb_eq in Hp. eauto.
    - split; [discriminate|]. intros [v [HIn [Hu Hp]]]. exfalso.
      apply (find_none _ _ Hv) in HIn.
      rewrite Hu, Hp, Z.eqb_refl, String.eqb_refl in HIn. discriminate. }
  split; [exact Hiff|]. split; [|split].
  - rewrite create_vehicle_cases.
    destruct (lookup_vehicle (User.id u) plate st); [reflexivity|discriminate].
  - intros Hother Hc. apply Hiff in Hc. destruct Hc as [v [HIn [Hu Hp]]].
    now apply (Hother v).
  - rewrite create_vehicle_cases. unfold lookup_vehicle.
    destruct (find _ (vehicles st)) as [v|] eqn:Hv; simpl;
      [intros H; now destruct H|intros _].
    repeat split.
    + intros w HIn. now apply next_id_fresh.
    + rewrite (find_app_none _ _ _ Hv). simpl.
      now rewrite Z.eqb_refl, String.eqb_refl.
Qed.

(** The plate ["ABC123"] of the seed user is taken for that user, free for
    another user, and ["abc123"] is another plate. *)
Lemma create_vehicle_conflict_iff_witness :
  fst (create_vehicle "ABC123" demo_user st_parked) = HTTPException 409
  /\ fst (create_vehicle "ABC123" other_user st_parked)
     = Ok (VehicleResponse.mk 2 "ABC123" 2)
  /\ fst (create_vehicle "abc123" demo_user st_parked)
     = Ok (VehicleResponse.mk 2 "abc123" 1).
Proof.
  split; [|split].
  - destruct (create_vehicle_conflict_iff st_parked "ABC123" demo_user)
      as [[_ Hc] _].
    apply Hc. exists (Vehicle.mk 1 1 "ABC123"). simpl. auto.
  - destruct (create_vehicle_conflict_iff st_parked "ABC123" other_user)
      as [_ [_ [Hfree Hnew]]].
    destruct Hnew as [Hrun _].
    + apply Hfree. intros v [<-|[]] _. simpl. discriminate.
    + rewrite Hrun. reflexivity.
  - destruct (create_vehicle_conflict_iff st_parked "abc123" demo_user)
      as [_ [_ [Hfree Hnew]]].
    destruct Hnew as [Hrun _].
    + apply Hfree. intros v [<-|[]] Hp. simpl in Hp. discriminate.
    + rewrite Hrun. reflexivity.
Defined.

(** ** The wallet *)

(** C9.  [POST /wallet/deposit] as the module wires it: no request makes it
    return, and none makes it write.  With the seed user's key and
    [amount = 50]: without [session_id] in the query the framework refuses
    the request; with the [session_id] of a session of the caller the
    endpoint raises [AttributeError] at [session.add]; the balance of 300 is
    as it was.  The body of the endpoint, run with the database session
    ([deposit_to_wallet_db]), would have stored and returned 350. *)
Theorem deposit_route_never_credits :
  (forall x_api_key now query_session_id amount st,
     snd (handle x_api_key now (POST_wallet_deposit query_session_id amount) st)
     = st
     /\ forall resp,
          fst (handle x_api_key now
                 (POST_wallet_deposit query_session_id amount) st)
          <> Ok resp)
  /\ handle (Some "testkey"%string) 60000000 (POST_wallet_deposit None 50)
       st_parked
     = (RequestValidationError, st_parked)
  /\ handle (Some "testkey"%string) 60000000 (POST_wallet_deposit (Some 1) 50)
       st_parked
     = (AttributeError, st_parked)
  /\ users st_parked = [demo_user]
  /\ User.balance demo_user = 300%Q
  /\ fst (deposit_to_wallet 50 DbSession demo_user st_parked)
     = Ok (300 + 50)%Q
  /\ users (snd (deposit_to_wallet 50 DbSession demo_user st_parked))
     = [User.with_balance demo_user (300 + 50)].
Proof.
  split; [intros; apply handle_deposit|].
  repeat split.
Qed.

(** ** The zone of a session *)

Lemma stop_session_attribute_error (session_id : Z) (now : datetime)
  (u : User.t) (st : Store) :
  fst (stop_session session_id now u st) = AttributeError ->
  exists s, lookup_session session_id st = Some s
            /\ In s (parking_sessions st)
            /\ lookup_zone (ParkingSession.zone_id s) st = None
            /\ 3 < elapsed_minutes (ParkingSession.started_at s) now.
Proof.
  unfold stop_session, lookup_session, lookup_zone. run.
  destruct (find _ (parking_sessions st)) as [s|] eqn:Hs; [|discriminate].
  destruct (negb _); [discriminate|].
  destruct (negb _); [discriminate|].
  simpl. unfold billing.
  destruct (_ <=? 3) eqn:E; [discriminate|]. apply Z.leb_gt in E.
  destruct (find _ (zones st)) as [z|] eqn:Hz.
  - destruct (_ >? _); [discriminate|]. destruct (Qltb _ _); discriminate.
  - intros _. exists s. apply find_some in Hs. tauto.
Qed.

Lemma reachable_lookup_zone (st0 st : Store) (zone_id : Z) (z : Zone.t) :
  lookup_zone zone_id st0 = Some z ->
  reachable st0 st -> lookup_zone zone_id st = Some z.
Proof.
  intros H0. revert st.
  apply (reachable_ind_transition (fun st => lookup_zone zone_id st = Some z));
    [exact H0|].
  intros s s' IH T. now apply transition_lookup_zone with s.
Qed.

Lemma zones_present_seeded : zones_present seeded.
Proof. intros s []. Qed.

(** C10.  In every store reached from a store whose sessions all name a
    zone that is there (the seeded store is one): they still do, every zone
    of the start is still found, unchanged, the zone of every session that
    [stop_session] can load is found, and no stop raises [AttributeError].
    The read itself is unguarded: in [st_dangling], which no request
    produces, a stop past the grace period raises it and writes nothing,
    while a stop within the grace period goes through. *)
Theorem stop_zone_lookup_succeeds :
  forall st0 st,
    zones_present st0 -> reachable st0 st ->
    zones_present st
    /\ (forall zone_id z,
          lookup_zone zone_id st0 = Some z -> lookup_zone zone_id st = Some z)
    /\ (forall session_id s,
          lookup_session session_id st = Some s ->
          exists z, lookup_zone (ParkingSession.zone_id s) st = Some z)
    /\ (forall session_id now u,
          fst (stop_session session_id now u st) <> AttributeError)
    /\ stop_session 1 240000000 demo_user st_dangling
       = (AttributeError, st_dangling)
    /\ (exists r st',
          stop_session 1 180000000 demo_user st_dangling = (Ok r, st')).
Proof.
  intros st0 st H0 Hr.
  assert (zones_present st) as Hinv.
  { revert st Hr. apply reachable_ind_transition; [exact H0|].
    intros s s' H T. now apply transition_zones_present with s. }
  split; [exact Hinv|]. split; [|split; [|split; [|split]]].
  - intros zone_id z Hz. now apply reachable_lookup_zone with st0.
  - intros sid s Hs. unfold lookup_session in Hs. apply find_some in Hs.
    destruct Hs as [HIn _]. specialize (Hinv s HIn).
    destruct (lookup_zone (ParkingSession.zone_id s) st) as [z|];
      [eauto|congruence].
  - intros sid now u H. apply stop_session_attribute_error in H.
    destruct H as [s [_ [HIn [Hz _]]]]. now apply (Hinv s).
  - reflexivity.
  - eexists. eexists. vm_compute. reflexivity.
Qed.

Lemma stop_zone_lookup_succeeds_witness :
  zones_present st_parked
  /\ lookup_zone 2 st_parked = Some (Zone.mk 2 "B" 1 180)
  /\ fst (stop_session 1 240000000 demo_user st_parked) <> AttributeError.
Proof.
  destruct (stop_zone_lookup_succeeds seeded st_parked
              zones_present_seeded reachable_st_parked)
    as [Hinv [Hzones [_ [Hstop _]]]].
  split; [exact Hinv|]. split; [apply Hzones; reflexivity|apply Hstop].
Defined.

(** * Further properties of the endpoints *)

(** ** The effect of a request *)

Lemma handle_acts (x_api_key : option string) (now : datetime)
  (req : Request) (st : Store) :
  snd (handle x_api_key now req st) = st
  \/ exists u, depends_current_user x_api_key st = (Ok u, st)
               /\ In u (users st)
               /\ acts u st (snd (handle x_api_key now req st)).
Proof.
  destruct (depends_current_user_cases x_api_key st) as [[Hs Hf]|[u [Hu HIn]]].
  - left. destruct req; try reflexivity; unfold handle, bind;
      auth_failed Hf; reflexivity.
  - destruct req as [| |plate| |plate zone_id|sid|sid|q amount];
      try (now left);
      try (left; now destruct (handle_deposit x_api_key now q amount st));
      unfold handle, bind; rewrite Hu.
    + now left.
    + rewrite create_vehicle_cases.
      destruct (lookup_vehicle (User.id u) plate st) eqn:Hv; [now left|].
      right. exists u. simpl. repeat split; auto. now apply acts_vehicle.
    + now left.
    + rewrite start_session_cases.
      destruct (lookup_vehicle (User.id u) plate st) as [v|] eqn:Hv;
        [|now left].
      destruct (active_sessions (Vehicle.id v) st) eqn:Ha; [|now left].
      destruct (lookup_zone zone_id st) as [z|] eqn:Hz; [|now left].
      right. exists u. simpl. repeat split; auto.
      now apply acts_start with plate z.
    + destruct (stop_session sid now u st) as [[r| | |] st1] eqn:Hstop;
        simpl.
      * apply stop_session_ok in Hstop.
        destruct Hstop as [s [b [Hs [Ho [Ha [Hb [-> _]]]]]]].
        right. exists u. repeat split; auto. now apply acts_stop with sid.
      * left. pose proof (stop_session_failure sid now u st) as Hf.
        rewrite Hstop in Hf. simpl in Hf. apply Hf. discriminate.
      * left. pose proof (stop_session_failure sid now u st) as Hf.
        rewrite Hstop in Hf. simpl in Hf. apply Hf. discriminate.
      * left. pose proof (stop_session_failure sid now u st) as Hf.
        rewrite Hstop in Hf. simpl in Hf. apply Hf. discriminate.
    + left. pose proof (get_session_store sid u st) as Hg.
      destruct (get_session sid u st) as [[r| | |] st1]; simpl in *; subst;
        reflexivity.
Qed.

Lemma acts_transition (u : User.t) (st st' : Store) :
  In u (users st) -> acts u st st' -> transition st st'.
Proof.
  intros HIn [|plate Hv|plate v zone_id now z Hv Ha Hz|sid s now b Hs Ho Hact Hb].
  - apply transition_none.
  - now apply transition_vehicle.
  - now apply transition_start with z.
  - now apply transition_stop with u sid.
Qed.

Lemma reachable_ind_acts (P : Store -> Prop) (st0 : Store) :
  P st0 ->
  (forall st u st', P st -> In u (users st) -> acts u st st' -> P st') ->
  (forall st,
     P st ->
     P (mkStore (seeded_users st) (seeded_zones st) (vehicles st)
          (parking_sessions st))) ->
  forall st, reachable st0 st -> P st.
Proof.
  intros H0 Hact Hseed st Hr.
  induction Hr as [|st k now req Hr IH|st Hr IH]; [exact H0| |].
  - destruct (handle_acts k now req st) as [->|[u [_ [HIn Ha]]]];
      [exact IH|].
    now apply (Hact st u).
  - unfold lifespan. rewrite seed_data_store. now apply Hseed.
Qed.

Lemma pk_identifies {A} (id : A -> Z) (rows : list A) (a b : A) :
  NoDup (map id rows) -> In a rows -> In b rows -> id a = id b -> a = b.
Proof.
  induction rows as [|x rows IH]; simpl; [tauto|].
  intros ND Ha Hb E. inversion ND as [|? ? Hnot ND']; subst.
  destruct Ha as [->|Ha], Hb as [->|Hb]; auto.
  - exfalso. apply Hnot. rewrite E. now apply in_map.
  - exfalso. apply Hnot. rewrite <- E. now apply in_map.
Qed.

Lemma in_update_row_other {A} (id : A -> Z) (row r : A) (rows : list A) :
  In r rows -> id r <> id row -> In r (update_row id row rows).
Proof.
  intros HIn Hne. unfold update_row. apply in_map_iff. exists r.
  apply Z.eqb_neq in Hne. now rewrite Hne.
Qed.

Lemma in_update_row_self {A} (id : A -> Z) (row r : A) (rows : list A) :
  In r rows -> id r = id row -> In row (update_row id row rows).
Proof.
  intros HIn E. unfold update_row. apply in_map_iff. exists r.
  now rewrite E, Z.eqb_refl.
Qed.

Lemma find_app_some {A} (p : A -> bool) (l l' : list A) (a : A) :
  find p l = Some a -> find p (l ++ l') = Some a.
Proof.
  induction l as [|x l IH]; simpl; [discriminate|].
  destruct (p x); [auto|exact IH].
Qed.

Lemma find_none_of {A} (p : A -> bool) (l : list A) :
  (forall x, In x l -> p x = false) -> find p l = None.
Proof.
  induction l as [|a l IH]; simpl; intros H; [reflexivity|].
  rewrite (H a (or_introl eq_refl)). apply IH. intros x Hx. apply H. now right.
Qed.

(** ** Authentication *)

(** X1.  [get_current_user] never writes.  It answers 401 exactly when the
    key is empty or no user has it, and otherwise returns a user of the
    store whose [api_key] is the key, character for character. *)
Theorem get_current_user_authenticates :
  forall x_api_key st,
    snd (get_current_user x_api_key st) = st
    /\ (fst (get_current_user x_api_key st)
        = HTTPException HTTP_401_UNAUTHORIZED
        <-> x_api_key = ""%string
            \/ forall u, In u (users st) -> User.api_key u <> x_api_key)
    /\ (forall u,
          fst (get_current_user x_api_key st) = Ok u ->
          In u (users st) /\ User.api_key u = x_api_key
          /\ x_api_key <> ""%string)
    /\ (fst (get_current_user x_api_key st)
        = HTTPException HTTP_401_UNAUTHORIZED
        \/ exists u, fst (get_current_user x_api_key st) = Ok u).
Proof.
  intros k st. unfold get_current_user. run.
  destruct (k =? "")%string eqn:Ek.
  - apply String.eqb_eq in Ek. subst k. simpl.
    repeat split; auto; discriminate.
  - apply String.eqb_neq in Ek.
    destruct (find _ (users st)) as [u|] eqn:Hu; simpl.
    + apply find_some in Hu. destruct Hu as [HIn Hk].
      apply String.eqb_eq in Hk.
      split; [reflexivity|]. split; [|split].
      * split; [discriminate|]. intros [E|Hno]; [contradiction|].
        now destruct (Hno u HIn).
      * intros u' E. injection E as <-. auto.
      * right. eauto.
    + split; [reflexivity|]. split; [|split].
      * split; [intros _|reflexivity]. right. intros u HIn E.
        apply (find_none _ _ Hu) in HIn. rewrite E, String.eqb_refl in HIn.
        discriminate.
      * discriminate.
      * now left.
Qed.

Lemma get_current_user_authenticates_witness :
  fst (get_current_user "testkey" st_parked) = Ok demo_user
  /\ fst (get_current_user "TESTKEY" st_parked) = HTTPException 401.
Proof.
  split; [reflexivity|].
  destruct (get_current_user_authenticates "TESTKEY" st_parked)
    as [_ [[_ H401] _]].
  apply H401. right. intros u [<-|[]]. simpl. discriminate.
Defined.

Lemma depends_current_user_refused (x_api_key : option string) (st : Store) :
  (x_api_key = None \/ x_api_key = Some ""%string
   \/ exists k, x_api_key = Some k
                /\ forall u, In u (users st) -> User.api_key u <> k) ->
  depends_current_user x_api_key st =
  (match x_api_key with
   | None => RequestValidationError
   | Some _ => HTTPException HTTP_401_UNAUTHORIZED
   end, st).
Proof.
  intros [->|[->|[k [-> Hno]]]]; try reflexivity.
  simpl. unfold get_current_user. run.
  destruct (k =? "")%string; [reflexivity|].
  rewrite find_none_of; [reflexivity|].
  intros u HIn. apply String.eqb_neq. now apply Hno.
Qed.

(** X2.  A request for any route but the root, sent without the header
    [x-api-key], with an empty key, or with a key no user has, is answered
    by the framework's validation error (no header) or by 401, and the
    store is as it was.  The root route needs no key. *)
Theorem request_without_valid_key :
  forall x_api_key now req st,
    req <> GET_root ->
    (x_api_key = None \/ x_api_key = Some ""%string
     \/ exists k, x_api_key = Some k
                  /\ forall u, In u (users st) -> User.api_key u <> k) ->
    handle x_api_key now req st =
    (match x_api_key with
     | None => RequestValidationError
     | Some _ => HTTPException HTTP_401_UNAUTHORIZED
     end, st)
    /\ handle x_api_key now GET_root st = (Ok RootInfo, st).
Proof.
  intros key now req st Hreq Hkey. split; [|reflexivity].
  pose proof (depends_current_user_refused key st Hkey) as Hd.
  destruct req; try (now destruct Hreq); unfold handle, bind; rewrite Hd;
    destruct key; reflexivity.
Qed.

Lemma request_without_valid_key_witness :
  handle (Some "nokey"%string) 0 (POST_sessions_stop 1) st_parked
  = (HTTPException 401, st_parked)
  /\ handle None 0 (POST_vehicles "XYZ") st_parked
     = (RequestValidationError, st_parked).
Proof.
  split.
  - refine (proj1 (request_without_valid_key (Some "nokey"%string) 0
                     (POST_sessions_stop 1) st_parked _ _)).
    + discriminate.
    + right. right. exists "nokey"%string. split; [reflexivity|].
      intros u [<-|[]]. simpl. discriminate.
  - refine (proj1 (request_without_valid_key None 0 (POST_vehicles "XYZ")
                     st_parked _ _)).
    + discriminate.
    + now left.
Defined.

(** ** Seed data and restarts *)

Lemma seed_data_run (st : Store) :
  seed_data st =
  (Ok tt,
   mkStore (seeded_users st) (seeded_zones st) (vehicles st)
     (parking_sessions st)).
Proof.
  pose proof (seed_data_store st) as Hs.
  assert (fst (seed_data st) = Ok tt) as Hf.
  { unfold seed_data, add_user, add_zone. run.
    destruct (find _ (users st)); simpl; rewrite filter_true;
      destruct (zones st); reflexivity. }
  destruct (seed_data st) as [o st1]. simpl in *. now subst.
Qed.

Lemma seeded_users_has_demo (st : Store) :
  exists u, In u (seeded_users st)
            /\ User.email u = "demo@iberopuebla.mx"%string.
Proof.
  unfold seeded_users.
  destruct (find _ (users st)) as [u|] eqn:Hu.
  - apply find_some in Hu. destruct Hu as [HIn He].
    apply String.eqb_eq in He. eauto.
  - eexists. split; [apply in_or_app; right; left; reflexivity|reflexivity].
Qed.

Lemma seeded_users_fixed (st : Store) :
  has_demo_user st -> seeded_users st = users st.
Proof.
  intros [u [HIn He]]. unfold seeded_users.
  destruct (find _ (users st)) as [d|] eqn:Hd; [reflexivity|].
  apply (find_none _ _ Hd) in HIn. rewrite He in HIn. discriminate.
Qed.

Lemma seeded_zones_fixed (st : Store) :
  zones st <> [] -> seeded_zones st = zones st.
Proof. unfold seeded_zones. destruct (zones st); [congruence|reflexivity]. Qed.

(** X3.  [seed_data], on a store where nobody but the seed user holds the
    seed key: it returns; it leaves every row that was there, adding the
    seed user after the others when no user has the seed e-mail and the
    zones A and B when there is no zone at all; afterwards a user with the
    seed e-mail and a zone exist; and running it again changes nothing. *)
Theorem seed_data_idempotent :
  forall st,
    seed_key_free st ->
    let st1 := snd (seed_data st) in
    fst (seed_data st) = Ok tt
    /\ seed_data st1 = (Ok tt, st1)
    /\ has_demo_user st1
    /\ zones st1 <> []
    /\ (exists us, users st1 = users st ++ us)
    /\ (has_demo_user st -> users st1 = users st)
    /\ (zones st <> [] -> zones st1 = zones st)
    /\ vehicles st1 = vehicles st
    /\ parking_sessions st1 = parking_sessions st.
Proof.
  intros st _ st1. subst st1. rewrite (seed_data_run st). simpl.
  split; [reflexivity|].
  assert (has_demo_user
            (mkStore (seeded_users st) (seeded_zones st) (vehicles st)
               (parking_sessions st))) as Hdemo
    by apply seeded_users_has_demo.
  assert (seeded_zones st <> []) as Hz
    by (unfold seeded_zones; destruct (zones st); discriminate).
  split.
  { rewrite seed_data_run. simpl.
    rewrite (seeded_users_fixed _ Hdemo). simpl.
    now rewrite (seeded_zones_fixed
                   (mkStore (seeded_users st) (seeded_zones st) (vehicles st)
                      (parking_sessions st)) Hz). }
  split; [exact Hdemo|]. split; [exact Hz|]. split.
  { unfold seeded_users. destruct (find _ (users st)).
    - exists []. now rewrite app_nil_r.
    - eexists. reflexivity. }
  split; [apply seeded_users_fixed|].
  split; [apply seeded_zones_fixed|]. split; reflexivity.
Qed.

Lemma seed_data_idempotent_witness :
  seed_data seeded = (Ok tt, seeded)
  /\ users (snd (seed_data st_paid)) = users st_paid.
Proof.
  split.
  - assert (seed_key_free empty_db) as H by (intros u []).
    exact (proj1 (proj2 (seed_data_idempotent empty_db H))).
  - assert (seed_key_free st_paid) as H.
    { intros u [<-|[]] _. reflexivity. }
    destruct (seed_data_idempotent st_paid H) as [_ [_ [_ [_ [_ [Hu _]]]]]].
    apply Hu. eexists. split; [left; reflexivity|reflexivity].
Defined.

Lemma acts_users (u : User.t) (st st' : Store) :
  acts u st st' ->
  users st' = users st
  \/ exists b, users st' = update_row User.id b (users st)
               /\ user_identity b = user_identity u.
Proof.
  intros [|plate Hv|plate v zone_id now z Hv Ha Hz|sid s now b Hs Ho Hact Hb];
    auto.
  right. exists (billed_user b). split; [reflexivity|].
  destruct Hb; reflexivity.
Qed.

Lemma acts_has_demo_user (u : User.t) (st st' : Store) :
  users_pk_unique st -> In u (users st) -> acts u st st' ->
  has_demo_user st -> has_demo_user st'.
Proof.
  intros Hpk HIn Ha [d [Hd He]]. unfold has_demo_user.
  destruct (acts_users _ _ _ Ha) as [->|[b [-> Hb]]]; [now exists d|].
  destruct (Z.eq_dec (User.id d) (User.id u)) as [E|E].
  - assert (d = u) by (now apply (pk_identifies User.id (users st))).
    subst d. exists b. split.
    + apply in_update_row_self with u; [exact HIn|].
      unfold user_identity in Hb. congruence.
    + unfold user_identity in Hb. congruence.
  - exists d. split; [|exact He].
    apply in_update_row_other; [exact Hd|].
    unfold user_identity in Hb. congruence.
Qed.

Lemma acts_zones (u : User.t) (st st' : Store) :
  acts u st st' -> zones st' = zones st.
Proof. intros []; reflexivity. Qed.

(** X4.  In a store reached from one that has a user with the seed e-mail,
    at least one zone and distinct user keys (the seeded store is one),
    starting the application again changes nothing: no balance is reset,
    no zone or user is added a second time. *)
Theorem restart_changes_nothing :
  forall st0 st,
    has_demo_user st0 -> zones st0 <> [] -> users_pk_unique st0 ->
    reachable st0 st ->
    lifespan st = (Ok tt, st).
Proof.
  intros st0 st Hd0 Hz0 Hpk0 Hr.
  assert (has_demo_user st /\ zones st <> [] /\ users_pk_unique st)
    as [Hd [Hz _]].
  { revert st Hr. apply reachable_ind_acts; [auto| |].
    - intros st u st' [Hd [Hz Hpk]] HIn Ha. split; [|split].
      + now apply acts_has_demo_user with u st.
      + now rewrite (acts_zones _ _ _ Ha).
      + apply transition_users_pk_unique with st; [exact Hpk|].
        now apply acts_transition with u.
    - intros st [Hd [Hz Hpk]].
      rewrite (seeded_users_fixed _ Hd), (seeded_zones_fixed _ Hz).
      simpl. auto. }
  unfold lifespan. rewrite seed_data_run.
  rewrite (seeded_users_fixed _ Hd), (seeded_zones_fixed _ Hz).
  now destruct st.
Qed.

Lemma has_demo_user_seeded : has_demo_user seeded.
Proof. exists demo_user. split; [left|]; reflexivity. Qed.

Lemma restart_changes_nothing_witness : lifespan st_paid = (Ok tt, st_paid).
Proof.
  apply (restart_changes_nothing seeded st_paid has_demo_user_seeded).
  - discriminate.
  - exact users_pk_unique_seeded.
  - exact reachable_st_paid.
Defined.

(** ** Reading a session *)

(** X5.  [get_session] (the handler of [GET /sessions/{session_id}]) never
    writes.  It answers 404 when the session is not there (the key being
    one the driver can bind), else 403 when it is another user's, else the stored fields of the session; [cost_total]
    is [cost + 100] for a fined session and absent for any other. *)
Theorem get_session_view :
  forall session_id u st,
    snd (get_session session_id u st) = st
    /\ (sqlite_integer session_id ->
        lookup_session session_id st = None ->
        fst (get_session session_id u st)
        = HTTPException HTTP_404_NOT_FOUND)
    /\ (forall s,
          lookup_session session_id st = Some s ->
          ParkingSession.user_id s <> User.id u ->
          fst (get_session session_id u st)
          = HTTPException HTTP_403_FORBIDDEN)
    /\ (forall s,
          lookup_session session_id st = Some s ->
          ParkingSession.user_id s = User.id u ->
          exists r,
            fst (get_session session_id u st) = Ok r
            /\ r = session_response s (SessionResponse.cost_total r)
            /\ (ParkingSession.status s = "fined"%string ->
                forall c, ParkingSession.cost s = Some c ->
                          SessionResponse.cost_total r = Some (c + 100)%Q)
            /\ (ParkingSession.status s <> "fined"%string ->
                SessionResponse.cost_total r = None)).
Proof.
  intros sid u st. split; [apply get_session_store|].
  unfold get_session, lookup_session. run. split; [|split].
  - intros _ Hs. now rewrite Hs.
  - intros s Hs Ho. rewrite Hs. apply Z.eqb_neq in Ho. now rewrite Ho.
  - intros s Hs Ho. rewrite Hs, Ho, Z.eqb_refl. simpl.
    eexists. split; [reflexivity|]. split; [reflexivity|]. simpl. split.
    + intros Hf c Hc. now rewrite Hf, Hc.
    + intros Hf. apply String.eqb_neq in Hf. now rewrite Hf.
Qed.

Lemma get_session_view_witness :
  fst (get_session 9 demo_user st_paid) = HTTPException 404
  /\ fst (get_session 1 other_user st_paid) = HTTPException 403
  /\ exists r, fst (get_session 1 demo_user st_paid) = Ok r
               /\ SessionResponse.status r = "completed"%string
               /\ SessionResponse.cost_total r = None.
Proof.
  destruct (get_session_view 9 demo_user st_paid) as [_ [H404 _]].
  destruct (get_session_view 1 other_user st_paid) as [_ [_ [H403 _]]].
  destruct (get_session_view 1 demo_user st_paid) as [_ [_ [_ Hok]]].
  split; [apply H404; [unfold sqlite_integer; lia|reflexivity]|]. split.
  - eapply H403; [reflexivity|]. simpl. discriminate.
  - destruct (Hok _ eq_refl eq_refl) as [r [Hr [Er [_ Hnone]]]].
    exists r. split; [exact Hr|]. split.
    + rewrite Er. reflexivity.
    + apply Hnone. simpl. discriminate.
Defined.

Lemma get_session_run (session_id : Z) (u : User.t) (st : Store)
  (s : ParkingSession.t) :
  lookup_session session_id st = Some s ->
  ParkingSession.user_id s = User.id u ->
  get_session session_id u st =
  (Ok (session_response s
         (if (ParkingSession.status s =? "fined")%string then
            match ParkingSession.cost s with
            | Some c => Some (c + 100)%Q
            | None => None
            end
          else None)), st).
Proof.
  intros Hs Ho. unfold get_session, lookup_session in *. run.
  now rewrite Hs, Ho, Z.eqb_refl.
Qed.

(** X6.  After a stop that went through, the owner reads the session back
    and gets the very answer the stop gave: same minutes, cost, status and
    [cost_total]. *)
Theorem stop_then_get :
  forall st st' session_id now u r,
    stop_session session_id now u st = (Ok r, st') ->
    get_session session_id u st' = (Ok r, st').
Proof.
  intros st st' sid now u r H. apply stop_session_ok in H.
  destruct H as [s [b [Hs [Ho [Ha [Hb [-> ->]]]]]]].
  rewrite (get_session_run sid u _ _ (lookup_session_stopped _ _ now b _ Hs) Ho).
  unfold stopped_response. simpl. destruct Hb; reflexivity.
Qed.

Lemma stop_then_get_witness :
  exists r,
    stop_session 1 (121 * 60000000) poor_user st_poor_parked
    = (Ok r, snd (stop_session 1 (121 * 60000000) poor_user st_poor_parked))
    /\ get_session 1 poor_user
         (snd (stop_session 1 (121 * 60000000) poor_user st_poor_parked))
       = (Ok r, snd (stop_session 1 (121 * 60000000) poor_user st_poor_parked))
    /\ SessionResponse.status r = "fined"%string.
Proof.
  eexists. split; [vm_compute; reflexivity|]. split; [|reflexivity].
  eapply (stop_then_get st_poor_parked _ 1 (121 * 60000000) poor_user).
  vm_compute. reflexivity.
Defined.

Lemma lookup_session_new (st : Store) (u : User.t) (v : Vehicle.t)
  (zone_id : Z) (now : datetime) :
  lookup_session (ParkingSession.id (new_session st u v zone_id now))
    (with_session st (new_session st u v zone_id now))
  = Some (new_session st u v zone_id now).
Proof.
  unfold lookup_session. simpl. rewrite find_app_none.
  - simpl. now rewrite Z.eqb_refl.
  - apply find_none_of. intros s HIn. apply Z.eqb_neq.
    apply (next_id_fresh ParkingSession.id) in HIn. lia.
Qed.

Lemma start_session_ok (plate : string) (zone_id : Z) (now : datetime)
  (u : User.t) (st st' : Store) (r : SessionResponse.t) :
  start_session plate zone_id now u st = (Ok r, st') ->
  exists v z,
    lookup_vehicle (User.id u) plate st = Some v
    /\ active_sessions (Vehicle.id v) st = []
    /\ lookup_zone zone_id st = Some z
    /\ st' = with_session st (new_session st u v zone_id now)
    /\ r = session_response (new_session st u v zone_id now) None.
Proof.
  rewrite start_session_cases.
  destruct (lookup_vehicle (User.id u) plate st) as [v|]; [|discriminate].
  destruct (active_sessions (Vehicle.id v) st) eqn:Ha; [|discriminate].
  destruct (lookup_zone zone_id st) as [z|]; [|discriminate].
  intros H. inversion H; subst. exists v, z. repeat split; auto.
Qed.

(** X7.  A start that goes through answers with a session of the caller,
    on a vehicle of the caller with the plate, in the zone asked for,
    [status = "active"], [started_at = now], no end, minutes, cost or
    [cost_total], and a key above every key of the table; the caller reads
    that session back and gets the same answer. *)
Theorem start_then_get :
  forall st st' plate zone_id now u r,
    start_session plate zone_id now u st = (Ok r, st') ->
    get_session (SessionResponse.id r) u st' = (Ok r, st')
    /\ SessionResponse.status r = "active"%string
    /\ SessionResponse.started_at r = now
    /\ SessionResponse.ended_at r = None
    /\ SessionResponse.minutes r = None
    /\ SessionResponse.cost r = None
    /\ SessionResponse.cost_total r = None
    /\ SessionResponse.user_id r = User.id u
    /\ SessionResponse.zone_id r = zone_id
    /\ (forall s, In s (parking_sessions st) ->
                  ParkingSession.id s < SessionResponse.id r)
    /\ (exists v, In v (vehicles st)
                  /\ Vehicle.id v = SessionResponse.vehicle_id r
                  /\ Vehicle.user_id v = User.id u
                  /\ Vehicle.plate v = plate).
Proof.
  intros st st' plate zone_id now u r H. apply start_session_ok in H.
  destruct H as [v [z [Hv [Ha [Hz [-> ->]]]]]].
  split.
  { exact (get_session_run _ u _ _ (lookup_session_new st u v zone_id now)
             eq_refl). }
  repeat (split; [reflexivity|]). split.
  - intros s HIn. simpl. now apply next_id_fresh.
  - exists v. unfold lookup_vehicle in Hv. apply find_some in Hv.
    destruct Hv as [HIn Hp]. apply andb_true_iff in Hp. destruct Hp as [Hu Hp].
    apply Z.eqb_eq in Hu. apply String.eqb_eq in Hp. auto.
Qed.

Lemma start_then_get_witness :
  exists r st',
    start_session "ABC123" 2 0 demo_user st_vehicle = (Ok r, st')
    /\ get_session 1 demo_user st' = (Ok r, st')
    /\ SessionResponse.zone_id r = 2.
Proof.
  eexists. eexists. split; [vm_compute; reflexivity|].
  destruct (start_then_get st_vehicle _ "ABC123" 2 0 demo_user _ eq_refl)
    as [Hget [_ [_ [_ [_ [_ [_ [_ [Hz _]]]]]]]]].
  split; [exact Hget|exact Hz].
Defined.

(** ** The life of a session *)

Lemma billed_exists (m : Z) (z : Zone.t) (u : User.t) :
  exists b, billed m (Some z) u b.
Proof.
  destruct (Z_le_gt_dec m 3) as [H3|H3].
  - eexists. now apply billed_grace.
  - destruct (Z_lt_le_dec (Zone.max_minutes z) m) as [Hmax|Hmax].
    + eexists. apply billed_fined; [reflexivity|lia|exact Hmax].
    + destruct (Qlt_le_dec (User.balance u)
                  (inject_Z m * Zone.rate_per_min z)) as [Hb|Hb].
      * eexists. apply billed_pending; [reflexivity|lia|exact Hmax|exact Hb].
      * eexists. apply billed_paid; [reflexivity|lia|exact Hmax|exact Hb].
Qed.

Lemma update_row_app_fresh {A} (id : A -> Z) (row x : A) (rows : list A) :
  (forall r, In r rows -> id r <> id row) ->
  update_row id row (rows ++ [x]) =
  rows ++ [if id x =? id row then row else x].
Proof.
  intros Hfresh. unfold update_row. rewrite map_app. simpl. f_equal.
  rewrite <- (map_id rows) at 2. apply map_ext_in. intros r HIn.
  specialize (Hfresh r HIn). apply Z.eqb_neq in Hfresh. now rewrite Hfresh.
Qed.

(** X8.  A session that was just started can be stopped by its owner at
    any reading of the clock: the stop goes through and bills the minutes
    from the start to that reading.  After it the vehicle has no active
    session, and a new start for the same plate in any zone of the store
    goes through. *)
Theorem park_leave_park_again :
  forall st st1 plate zone_id now u r,
    start_session plate zone_id now u st = (Ok r, st1) ->
    forall now',
    exists r' st2,
      stop_session (SessionResponse.id r) now' u st1 = (Ok r', st2)
      /\ SessionResponse.minutes r' = Some (elapsed_minutes now now')
      /\ SessionResponse.status r' <> "active"%string
      /\ active_sessions (SessionResponse.vehicle_id r) st2 = []
      /\ forall zone_id' now'',
           lookup_zone zone_id' st <> None ->
           exists r'' st3,
             start_session plate zone_id' now'' u st2 = (Ok r'', st3).
Proof.
  intros st st1 plate zone_id now u r H now'.
  apply start_session_ok in H. destruct H as [v [z [Hv [Ha [Hz [-> ->]]]]]].
  set (s := new_session st u v zone_id now).
  destruct (billed_exists (elapsed_minutes now now') z u) as [b Hb].
  assert (stop_session (ParkingSession.id s) now' u (with_session st s)
          = (Ok (stopped_response s now' b),
             stopped_store (with_session st s) s now' b)) as Hstop.
  { apply stop_session_run.
    - apply lookup_session_new.
    - reflexivity.
    - reflexivity.
    - exact (eq_ind _ (fun zo => billed _ zo u b) Hb _ (eq_sym Hz)). }
  assert (active_sessions (Vehicle.id v)
            (stopped_store (with_session st s) s now' b) = []) as Hnone.
  { unfold active_sessions in *. simpl.
    rewrite update_row_app_fresh.
    - rewrite filter_app, Ha. simpl. rewrite Z.eqb_refl.
      unfold is_active_for, finalize. simpl.
      now rewrite (billed_not_active _ _ _ _ Hb), andb_false_r.
    - intros x HIn. simpl.
      apply (next_id_fresh ParkingSession.id) in HIn. lia. }
  exists (stopped_response s now' b),
    (stopped_store (with_session st s) s now' b).
  split; [exact Hstop|]. split; [reflexivity|]. split.
  { simpl. apply String.eqb_neq. apply (billed_not_active _ _ _ _ Hb). }
  split; [exact Hnone|].
  intros zone_id' now'' Hz'.
  rewrite start_session_cases.
  change (lookup_vehicle (User.id u) plate
            (stopped_store (with_session st s) s now' b))
    with (lookup_vehicle (User.id u) plate st).
  rewrite Hv, Hnone.
  change (lookup_zone zone_id' (stopped_store (with_session st s) s now' b))
    with (lookup_zone zone_id' st).
  destruct (lookup_zone zone_id' st); [eauto|congruence].
Qed.

Lemma park_leave_park_again_witness :
  exists r' st2,
    stop_session 1 900000000 demo_user st_parked = (Ok r', st2)
    /\ SessionResponse.minutes r' = Some 15
    /\ exists r'' st3,
         start_session "ABC123" 2 900000001 demo_user st2 = (Ok r'', st3).
Proof.
  destruct (park_leave_park_again st_vehicle st_parked "ABC123" 1 0 demo_user
              (session_response
                 (ParkingSession.mk 1 1 1 1 0 None None None "active") None)
              eq_refl 900000000)
    as [r' [st2 [Hstop [Hm [_ [_ Hagain]]]]]].
  exists r', st2. split; [exact Hstop|]. split; [exact Hm|].
  apply Hagain. simpl. discriminate.
Defined.

(** X9.  [stop_session] goes through exactly when the session is there,
    is the caller's, is active, and either lasted at most 3 minutes or its
    zone is in the store.  It raises [AttributeError] exactly when the
    session is there, is the caller's, is active, lasted more than 3
    minutes and its zone is not in the store.  For a key the driver can
    bind its only other answers are 404, 403 and 422. *)
Theorem stop_session_succeeds_iff :
  forall session_id now u st,
    ((exists r st', stop_session session_id now u st = (Ok r, st'))
     <-> exists s,
           lookup_session session_id st = Some s
           /\ ParkingSession.user_id s = User.id u
           /\ ParkingSession.status s = "active"%string
           /\ (elapsed_minutes (ParkingSession.started_at s) now <= 3
               \/ lookup_zone (ParkingSession.zone_id s) st <> None))
    /\ (fst (stop_session session_id now u st) = AttributeError
        <-> exists s,
              lookup_session session_id st = Some s
              /\ ParkingSession.user_id s = User.id u
              /\ ParkingSession.status s = "active"%string
              /\ 3 < elapsed_minutes (ParkingSession.started_at s) now
              /\ lookup_zone (ParkingSession.zone_id s) st = None)
    /\ (sqlite_integer session_id ->
        (exists r, fst (stop_session session_id now u st) = Ok r)
        \/ fst (stop_session session_id now u st)
           = HTTPException HTTP_404_NOT_FOUND
        \/ fst (stop_session session_id now u st)
           = HTTPException HTTP_403_FORBIDDEN
        \/ fst (stop_session session_id now u st)
           = HTTPException HTTP_422_UNPROCESSABLE_ENTITY
        \/ fst (stop_session session_id now u st) = AttributeError).
Proof.
  intros sid now u st. split; [split|split; [split|intros _]].
  - intros [r [st' H]]. apply stop_session_ok in H.
    destruct H as [s [b [Hs [Ho [Ha [Hb _]]]]]].
    exists s. repeat split; auto.
    destruct Hb as [H3|z Hz _ _|z Hz _ _ _|z Hz _ _ _];
      [now left|right; congruence..].
  - intros [s [Hs [Ho [Ha Hz]]]].
    assert (exists b, billed (elapsed_minutes (ParkingSession.started_at s) now)
                        (lookup_zone (ParkingSession.zone_id s) st) u b)
      as [b Hb].
    { destruct (Z_le_gt_dec
                  (elapsed_minutes (ParkingSession.started_at s) now) 3)
        as [H3|H3].
      - eexists. now apply billed_grace.
      - destruct (lookup_zone (ParkingSession.zone_id s) st) as [z|].
        + apply billed_exists.
        + exfalso. destruct Hz as [Hz|Hz]; [lia|congruence]. }
    eexists. eexists. now apply (stop_session_run sid now u st s b).
  - unfold stop_session, lookup_session, lookup_zone. run.
    destruct (find _ (parking_sessions st)) as [s|]; [|discriminate].
    destruct (ParkingSession.user_id s =? User.id u) eqn:Ho;
      [|discriminate].
    destruct (ParkingSession.status s =? "active")%string eqn:Ha;
      [|discriminate].
    simpl. unfold billing.
    destruct (_ <=? 3) eqn:E; [discriminate|]. apply Z.leb_gt in E.
    destruct (find _ (zones st)) as [z|] eqn:Hz.
    + destruct (_ >? _); [discriminate|]. destruct (Qltb _ _); discriminate.
    + intros _. exists s. apply Z.eqb_eq in Ho. apply String.eqb_eq in Ha.
      repeat split; auto.
  - intros [s [Hs [Ho [Ha [H3 Hz]]]]].
    unfold stop_session, lookup_session, lookup_zone in *. run.
    rewrite Hs, Ho, Z.eqb_refl, Ha. simpl. unfold billing.
    apply Z.leb_gt in H3. now rewrite H3, Hz.
  - unfold stop_session. run.
    destruct (find _ (parking_sessions st)) as [s|]; [|auto].
    destruct (negb _); [auto|]. destruct (negb _); [auto 6|].
    simpl. unfold billing.
    destruct (_ <=? 3); [left; eexists; reflexivity|].
    destruct (find _ (zones st)) as [z|]; [|auto 6].
    destruct (_ >? _); [left; eexists; reflexivity|].
    destruct (Qltb _ _); left; eexists; reflexivity.
Qed.

Lemma stop_session_succeeds_iff_witness :
  (exists r st', stop_session 1 180000000 demo_user st_dangling = (Ok r, st'))
  /\ ~ (exists r st',
          stop_session 1 240000000 demo_user st_dangling = (Ok r, st')).
Proof.
  destruct (stop_session_succeeds_iff 1 180000000 demo_user st_dangling)
    as [[_ Hyes] _].
  destruct (stop_session_succeeds_iff 1 240000000 demo_user st_dangling)
    as [[Hno _] _].
  split.
  - apply Hyes. eexists. split; [reflexivity|].
    split; [reflexivity|]. split; [reflexivity|]. left. vm_compute. discriminate.
  - intros H. apply Hno in H. destruct H as [s [Hs [_ [_ [H3|Hz]]]]].
    + injection Hs as <-. vm_compute in H3. now apply H3.
    + injection Hs as <-. now apply Hz.
Defined.

(** ** What is never deleted or rewritten *)

Lemma transition_lookup_session (st st' : Store) (session_id : Z)
  (s : ParkingSession.t) :
  lookup_session session_id st = Some s ->
  transition st st' ->
  exists s',
    lookup_session session_id st' = Some s'
    /\ session_key s' = session_key s
    /\ (ParkingSession.status s <> "active"%string -> s' = s).
Proof.
  intros Hs T.
  destruct T as [|u plate Hv|u v zone_id now z Ha Hz|u sid s0 now b HIn Hs0 Ho Hact Hb|];
    try (exists s; auto; fail).
  - exists s. split; [|auto]. unfold lookup_session in *. simpl.
    now apply find_app_some.
  - unfold lookup_session in *. simpl. rewrite find_update_row, Hs.
    pose proof (find_some _ _ Hs) as [_ Es]. apply Z.eqb_eq in Es.
    pose proof (find_some _ _ Hs0) as [_ Es0]. apply Z.eqb_eq in Es0.
    simpl. destruct (ParkingSession.id s =? ParkingSession.id s0) eqn:E.
    + apply Z.eqb_eq in E.
      assert (s0 = s) by (rewrite <- Es0, <- E, Es in Hs0; congruence).
      subst s0. eexists. split; [reflexivity|]. split; [reflexivity|].
      intros Hne. contradiction.
    + exists s. auto.
Qed.

(** X10.  A session of the store stays in every store reached from it,
    under the same key, with the same user, vehicle, zone and start; and a
    session that has ended is never changed again. *)
Theorem sessions_persist :
  forall st0 st session_id s,
    lookup_session session_id st0 = Some s ->
    reachable st0 st ->
    exists s',
      lookup_session session_id st = Some s'
      /\ session_key s' = session_key s
      /\ (ParkingSession.status s <> "active"%string -> s' = s).
Proof.
  intros st0 st sid s Hs Hr. revert st Hr.
  apply reachable_ind_transition.
  - exists s. auto.
  - intros st st' [s1 [H1 [K1 F1]]] T.
    destruct (transition_lookup_session _ _ _ _ H1 T) as [s2 [H2 [K2 F2]]].
    exists s2. split; [exact H2|]. split; [congruence|].
    intros Hne. specialize (F1 Hne). subst s1. auto.
Qed.

Lemma reachable_after_paid (x_api_key : option string) (now : datetime)
  (req : Request) :
  reachable st_paid (snd (handle x_api_key now req st_paid)).
Proof. apply reachable_step, reachable_init. Qed.

Lemma sessions_persist_witness :
  lookup_session 1
    (snd (handle (Some "testkey"%string) 999000000 (POST_sessions_stop 1)
            st_paid))
  = lookup_session 1 st_paid.
Proof.
  destruct (sessions_persist st_paid
              (snd (handle (Some "testkey"%string) 999000000
                      (POST_sessions_stop 1) st_paid))
              1 _ eq_refl (reachable_after_paid _ _ _))
    as [s' [Hs' [_ Hsame]]].
  rewrite Hs'. rewrite Hsame; [reflexivity|]. simpl. discriminate.
Defined.

Lemma update_row_map_identity (b u : User.t) (rows : list User.t) :
  NoDup (map User.id rows) -> In u rows ->
  user_identity b = user_identity u ->
  map user_identity (update_row User.id b rows) = map user_identity rows.
Proof.
  intros ND HIn Hb. unfold update_row. rewrite map_map. apply map_ext_in.
  intros r Hr. destruct (User.id r =? User.id b) eqn:E; [|reflexivity].
  apply Z.eqb_eq in E.
  assert (r = u); [|congruence].
  apply (pk_identifies User.id rows); auto.
  unfold user_identity in Hb. congruence.
Qed.

Lemma acts_rows_kept (u : User.t) (st st' : Store) :
  users_pk_unique st -> In u (users st) -> acts u st st' ->
  (exists vs, vehicles st' = vehicles st ++ vs)
  /\ map user_identity (users st') = map user_identity (users st)
  /\ zones st' = zones st
  /\ (length (parking_sessions st) <= length (parking_sessions st'))%nat.
Proof.
  intros Hpk HIn Ha.
  destruct Ha as [|plate Hv|plate v zone_id now z Hv Ha Hz|sid s now b Hs Ho Hact Hb];
    simpl.
  - repeat split; auto. exists []. now rewrite app_nil_r.
  - repeat split; auto. eexists. reflexivity.
  - repeat split; auto.
    + exists []. now rewrite app_nil_r.
    + rewrite length_app. lia.
  - split; [exists []; now rewrite app_nil_r|]. split; [|split; [reflexivity|]].
    + apply update_row_map_identity with u; auto. destruct Hb; reflexivity.
    + unfold update_row. rewrite length_map. lia.
Qed.

(** X11.  From a store with distinct user keys, in every store reached:
    the vehicles of the start are still there, unchanged and in the same
    order, before the new ones; so are the users with their key, e-mail and
    API key (a restart can add the seed user after them, and adds nobody
    when the seed e-mail is taken); the zones are those of the start when
    it had any; and the number of sessions has not gone down. *)
Theorem rows_are_kept :
  forall st0 st,
    users_pk_unique st0 -> reachable st0 st ->
    (exists vs, vehicles st = vehicles st0 ++ vs)
    /\ (exists us, map user_identity (users st)
                   = map user_identity (users st0) ++ us)
    /\ (has_demo_user st0 ->
        map user_identity (users st) = map user_identity (users st0))
    /\ (zones st0 <> [] -> zones st = zones st0)
    /\ (length (parking_sessions st0) <= length (parking_sessions st))%nat.
Proof.
  intros st0 st Hpk0 Hr.
  assert (users_pk_unique st
          /\ (exists vs, vehicles st = vehicles st0 ++ vs)
          /\ (exists us, map user_identity (users st)
                         = map user_identity (users st0) ++ us)
          /\ (has_demo_user st0 ->
              has_demo_user st
              /\ map user_identity (users st) = map user_identity (users st0))
          /\ (zones st0 <> [] -> zones st = zones st0)
          /\ (length (parking_sessions st0)
              <= length (parking_sessions st))%nat) as H.
  { revert st Hr. apply reachable_ind_acts.
    - split; [exact Hpk0|]. split; [exists []; now rewrite app_nil_r|].
      split; [exists []; now rewrite app_nil_r|]. auto.
    - intros st u st' [Hpk [[vs Hv] [[us Hu] [Hd [Hz Hl]]]]] HIn Ha.
      destruct (acts_rows_kept _ _ _ Hpk HIn Ha) as [[vs' Hv'] [Hu' [Hz' Hl']]].
      split.
      { apply transition_users_pk_unique with st; [exact Hpk|].
        now apply acts_transition with u. }
      split; [exists (vs ++ vs'); now rewrite Hv', Hv, app_assoc|].
      split; [exists us; now rewrite Hu', Hu|].
      split.
      { intros H0. destruct (Hd H0) as [Hd1 Hd2]. split; [|congruence].
        now apply acts_has_demo_user with u st. }
      split; [intros H0; rewrite Hz'; auto|lia].
    - intros st [Hpk [[vs Hv] [[us Hu] [Hd [Hz Hl]]]]]. simpl.
      split.
      { apply (transition_users_pk_unique st); [exact Hpk|].
        apply transition_seed. }
      split; [eauto|]. split.
      { unfold seeded_users. destruct (find _ (users st)); [eauto|].
        rewrite map_app, Hu. eexists. now rewrite <- app_assoc. }
      split.
      { intros H0. destruct (Hd H0) as [Hd1 Hd2].
        rewrite (seeded_users_fixed _ Hd1). auto. }
      split; [|exact Hl].
      intros H0. rewrite seeded_zones_fixed; [auto|]. rewrite (Hz H0). exact H0. }
  destruct H as [_ [Hv [Hu [Hd [Hz Hl]]]]].
  split; [exact Hv|]. split; [exact Hu|]. split; [|auto].
  intros H0. now destruct (Hd H0).
Qed.

Lemma rows_are_kept_witness :
  map user_identity (users st_paid) = [(1, "demo@iberopuebla.mx", "testkey")]%string
  /\ zones st_paid = zones seeded.
Proof.
  destruct (rows_are_kept seeded st_paid users_pk_unique_seeded
              reachable_st_paid) as [_ [_ [Hu [Hz _]]]].
  split.
  - rewrite (Hu has_demo_user_seeded). reflexivity.
  - apply Hz. discriminate.
Defined.

(** ** One user cannot touch the rows of another *)

(** X12.  A request authenticated as [u] leaves alone every user with
    another key and every session of another user; every vehicle and every
    session of the store after it was there before or is of [u]. *)
Theorem request_touches_only_caller :
  forall x_api_key now req st u,
    depends_current_user x_api_key st = (Ok u, st) ->
    let st' := snd (handle x_api_key now req st) in
    (forall u', In u' (users st) -> User.id u' <> User.id u ->
                In u' (users st'))
    /\ (forall session_id s,
          lookup_session session_id st = Some s ->
          ParkingSession.user_id s <> User.id u ->
          lookup_session session_id st' = Some s)
    /\ (forall v, In v (vehicles st') ->
                  In v (vehicles st) \/ Vehicle.user_id v = User.id u)
    /\ (forall s, In s (parking_sessions st') ->
                  In s (parking_sessions st)
                  \/ ParkingSession.user_id s = User.id u).
Proof.
  intros key now req st u Hu st'. subst st'.
  destruct (handle_acts key now req st) as [->|[u1 [Hu1 [HIn Ha]]]]; [auto|].
  assert (u1 = u) by congruence. subst u1.
  destruct Ha as [|plate Hv|plate v zone_id t z Hv Ha Hz|sid s0 t b Hs0 Ho Hact Hb];
    [auto| | |].
  - simpl. repeat split; auto.
    intros v HIn'. apply in_app_or in HIn'.
    destruct HIn' as [H|[<-|[]]]; auto.
  - simpl. repeat split; auto.
    + intros sid s Hs _. unfold lookup_session in *. simpl.
      now apply find_app_some.
    + intros s HIn'. apply in_app_or in HIn'.
      destruct HIn' as [H|[<-|[]]]; auto.
  - unfold stopped_store. cbn [users vehicles parking_sessions].
    split; [|split; [|split]]; auto.
    + intros u' HIn' Hne. apply in_update_row_other; [exact HIn'|].
      destruct Hb; simpl; exact Hne.
    + intros sid' s Hs Hne. unfold lookup_session in *.
      cbn [parking_sessions]. rewrite find_update_row, Hs. simpl.
      pose proof (find_some _ _ Hs) as [_ Es]. apply Z.eqb_eq in Es.
      pose proof (find_some _ _ Hs0) as [_ Es0]. apply Z.eqb_eq in Es0.
      destruct (ParkingSession.id s =? ParkingSession.id s0) eqn:E;
        [|reflexivity].
      apply Z.eqb_eq in E. exfalso. apply Hne. rewrite <- Ho.
      assert (s0 = s) by (rewrite <- Es0, <- E, Es in Hs0; congruence).
      now subst.
    + intros s HIn'. apply in_update_row in HIn'.
      destruct HIn' as [->|H]; auto.
Qed.

Lemma request_touches_only_caller_witness :
  let st' :=
    snd (handle (Some "testkey"%string) 300000000 (POST_sessions_stop 1)
           st_two_users) in
  lookup_session 2 st'
  = Some (ParkingSession.mk 2 2 2 2 0 None None None "active")
  /\ In other_user (users st')
  /\ In (User.with_balance demo_user (300 - inject_Z 5 * (3 # 2))) (users st').
Proof.
  destruct (request_touches_only_caller (Some "testkey"%string) 300000000
              (POST_sessions_stop 1) st_two_users demo_user eq_refl)
    as [Husers [Hsessions _]].
  split; [|split].
  - apply Hsessions; [reflexivity|]. simpl. discriminate.
  - apply Husers; [right; left; reflexivity|]. simpl. discriminate.
  - left. reflexivity.
Defined.

(** ** The ledger *)

Lemma charged_app (user_id : Z) (st : Store) (s : ParkingSession.t) :
  (charged user_id (with_session st s)
   == charged user_id st + charge user_id s)%Q.
Proof.
  unfold charged. simpl.
  induction (parking_sessions st) as [|x l IH]; simpl; [lra|].
  rewrite IH. lra.
Qed.

Lemma charged_update (user_id : Z) (l : list ParkingSession.t)
  (s s' : ParkingSession.t) :
  NoDup (map ParkingSession.id l) -> In s l ->
  ParkingSession.id s' = ParkingSession.id s ->
  (fold_right (fun x acc => charge user_id x + acc) 0
     (update_row ParkingSession.id s' l)
   == fold_right (fun x acc => charge user_id x + acc) 0 l
      - charge user_id s + charge user_id s')%Q.
Proof.
  intros ND HIn E. induction l as [|x l IH]; [destruct HIn|].
  simpl in ND. inversion ND as [|? ? Hnot ND']; subst.
  simpl. destruct HIn as [->|HIn].
  - rewrite E, Z.eqb_refl.
    assert (update_row ParkingSession.id s' l = l) as ->.
    { unfold update_row. rewrite <- (map_id l) at 2. apply map_ext_in.
      intros r Hr. destruct (ParkingSession.id r =? ParkingSession.id s') eqn:E';
        [|reflexivity].
      apply Z.eqb_eq in E'. exfalso. apply Hnot. rewrite <- E, <- E'.
      now apply in_map. }
    lra.
  - assert ((ParkingSession.id x =? ParkingSession.id s') = false) as ->.
    { apply Z.eqb_neq. intros E'. apply Hnot. rewrite E', E. now apply in_map. }
    fold (update_row ParkingSession.id s' l). rewrite (IH ND' HIn). lra.
Qed.

Lemma charge_finalized (user_id : Z) (s : ParkingSession.t) (now : datetime)
  (u : User.t) (b : Bill) (zone : option Zone.t) (m : Z) :
  billed m zone u b ->
  ParkingSession.user_id s = User.id u ->
  (User.id u = user_id ->
   (User.balance (billed_user b)
    + charge user_id (finalize s now m (cost b) (final_status b))
    == User.balance u)%Q)
  /\ (User.id u <> user_id ->
      charge user_id (finalize s now m (cost b) (final_status b)) = 0%Q).
Proof.
  intros Hb Ho. unfold charge, finalize. simpl. rewrite Ho. split.
  - intros ->. rewrite Z.eqb_refl. destruct Hb; simpl; lra.
  - intros E. apply Z.eqb_neq in E. now rewrite E.
Qed.

Lemma acts_ledger (a : User.t) (st st' : Store) :
  users_pk_unique st -> sessions_pk_unique st -> In a (users st) ->
  acts a st st' ->
  forall u, In u (users st) ->
    exists u', In u' (users st')
               /\ user_identity u' = user_identity u
               /\ (User.balance u' + charged (User.id u) st'
                   == User.balance u + charged (User.id u) st)%Q.
Proof.
  intros Hpk Hspk HIna Ha u HIn.
  destruct Ha as [|plate Hv|plate v zone_id t z Hv Ha Hz|sid s t b Hs Ho Hact Hb].
  - exists u. split; [exact HIn|]. split; [reflexivity|]. lra.
  - exists u. split; [exact HIn|]. split; [reflexivity|].
    unfold charged. simpl. lra.
  - exists u. split; [exact HIn|]. split; [reflexivity|].
    rewrite charged_app. unfold charge. simpl.
    rewrite andb_false_r. lra.
  - pose proof (find_some _ _ Hs) as [HIns _].
    set (m := elapsed_minutes (ParkingSession.started_at s) t) in *.
    assert (charge (User.id u) s = 0%Q) as Hc0.
    { unfold charge. rewrite Hact. simpl. now rewrite andb_false_r. }
    assert (charged (User.id u) (stopped_store st s t b)
            == charged (User.id u) st
               + charge (User.id u) (finalize s t m (cost b) (final_status b)))%Q
      as Hch.
    { unfold charged. simpl. fold m.
      rewrite (charged_update (User.id u) _ s); [|exact Hspk|exact HIns|reflexivity].
      rewrite Hc0. lra. }
    destruct (charge_finalized (User.id u) s t a b _ m Hb Ho) as [Hbal Hother].
    destruct (Z.eq_dec (User.id a) (User.id u)) as [E|E].
    + assert (a = u) by (now apply (pk_identifies User.id (users st))).
      subst a. exists (billed_user b). split; [|split].
      * simpl. now apply in_update_row_self with u;
          [|destruct Hb; reflexivity].
      * destruct Hb; reflexivity.
      * rewrite Hch. specialize (Hbal eq_refl). lra.
    + exists u. split; [|split; [reflexivity|]].
      * simpl. apply in_update_row_other; [exact HIn|].
        destruct Hb; simpl; congruence.
      * rewrite Hch, (Hother E). lra.
Qed.

Lemma transition_sessions_pk_unique (st st' : Store) :
  sessions_pk_unique st -> transition st st' -> sessions_pk_unique st'.
Proof.
  unfold sessions_pk_unique. intros Inv T.
  destruct T as [|u plate Hv|u v zone_id now z Ha Hz|u sid s now b HInu Hs Ho Hact Hb|];
    simpl; auto.
  - rewrite map_app. simpl. apply NoDup_app_fresh; [exact Inv|].
    intros HIn. apply in_map_iff in HIn. destruct HIn as [x [E HIn]].
    apply (next_id_fresh ParkingSession.id) in HIn. lia.
  - now rewrite update_row_map_id.
Qed.

(** X13.  From a store with distinct user keys and distinct session keys,
    in every store reached, each user of the start is still there, with the
    same key, e-mail and API key, and his balance plus the cost of his
    completed sessions is what it was at the start: money leaves a balance
    only into the cost of a completed session of that user, and nothing is
    ever credited. *)
Theorem ledger_is_conserved :
  forall st0 st,
    users_pk_unique st0 -> sessions_pk_unique st0 -> reachable st0 st ->
    forall u0, In u0 (users st0) ->
      exists u,
        In u (users st)
        /\ user_identity u = user_identity u0
        /\ (User.balance u + charged (User.id u0) st
            == User.balance u0 + charged (User.id u0) st0)%Q.
Proof.
  intros st0 st Hpk0 Hspk0 Hr u0 HIn0.
  assert (users_pk_unique st /\ sessions_pk_unique st
          /\ exists u,
               In u (users st)
               /\ user_identity u = user_identity u0
               /\ (User.balance u + charged (User.id u0) st
                   == User.balance u0 + charged (User.id u0) st0)%Q) as H.
  { revert st Hr. apply reachable_ind_acts.
    - split; [exact Hpk0|]. split; [exact Hspk0|].
      exists u0. split; [exact HIn0|]. split; [reflexivity|]. lra.
    - intros st a st' [Hpk [Hspk [u [HIn [Hid Hbal]]]]] HIna Ha.
      pose proof (acts_transition _ _ _ HIna Ha) as T.
      split; [now apply transition_users_pk_unique with st|].
      split; [now apply transition_sessions_pk_unique with st|].
      destruct (acts_ledger _ _ _ Hpk Hspk HIna Ha u HIn) as [u' [HIn' [Hid' Hbal']]].
      exists u'. split; [exact HIn'|]. split; [congruence|].
      assert (User.id u = User.id u0) as E
        by (unfold user_identity in Hid; congruence).
      rewrite E in Hbal'. rewrite Hbal'. exact Hbal.
    - intros st [Hpk [Hspk [u [HIn [Hid Hbal]]]]].
      split; [apply (transition_users_pk_unique st); [exact Hpk|apply transition_seed]|].
      split; [exact Hspk|].
      exists u. split; [|split; [exact Hid|exact Hbal]].
      simpl. unfold seeded_users. destruct (find _ (users st)); [exact HIn|].
      apply in_or_app. now left. }
  now destruct H as [_ [_ H]].
Qed.

Lemma ledger_is_conserved_witness :
  exists u, In u (users st_paid)
            /\ (User.balance u + charged 1 st_paid == 300)%Q
            /\ (charged 1 st_paid == 6)%Q.
Proof.
  destruct (ledger_is_conserved seeded st_paid users_pk_unique_seeded
              ltac:(constructor) reachable_st_paid demo_user
              (or_introl eq_refl)) as [u [HIn [_ Hbal]]].
  exists u. split; [exact HIn|]. split; [|reflexivity].
  rewrite Hbal. reflexivity.
Defined.

(** ** What the stored sessions look like *)

Lemma session_priced_mono (st st' : Store) (s : ParkingSession.t) :
  transition st st' -> session_priced st s -> session_priced st' s.
Proof.
  intros T Hp m Hm. destruct (Hp m Hm) as [Hle Hgt]. split; [exact Hle|].
  intros H3. destruct (Hgt H3) as [z [Hz Hrest]]. exists z.
  split; [|exact Hrest]. now apply transition_lookup_zone with st.
Qed.

Lemma finalized_wf_priced (st : Store) (s : ParkingSession.t)
  (now : datetime) (u : User.t) (b : Bill) :
  billed (elapsed_minutes (ParkingSession.started_at s) now)
    (lookup_zone (ParkingSession.zone_id s) st) u b ->
  let s' :=
    finalize s now (elapsed_minutes (ParkingSession.started_at s) now)
      (cost b) (final_status b) in
  session_wf s' /\ session_priced st s'.
Proof.
  intros Hb s'. subst s'. split.
  - right. simpl. split; [exact (billed_status _ _ _ _ Hb)|].
    repeat split; eexists; reflexivity.
  - intros m Hm. simpl in Hm. injection Hm as <-. simpl.
    destruct Hb as [H3|z Hz H3 Hmax|z Hz H3 Hmax Hbal|z Hz H3 Hmax Hbal]; simpl.
    + split; [auto|lia].
    + split; [lia|]. intros _. exists z. repeat split; auto.
    + split; [lia|]. intros _. exists z. repeat split; auto;
        [lia|discriminate].
    + split; [lia|]. intros _. exists z. repeat split; auto;
        [lia|discriminate].
Qed.

(** X14.  From a store whose sessions are well formed and priced by the
    tariff, every session of every store reached is: an active session has
    no end, minutes or cost; any other has all three and is completed,
    fined or pending payment; with at most 3 minutes it is completed at
    cost 0; with more, its zone is in the store, its cost is
    [minutes * rate_per_min], and it is fined exactly when the minutes
    exceed the zone's [max_minutes]. *)
Theorem sessions_well_formed :
  forall st0 st,
    (forall s, In s (parking_sessions st0) ->
               session_wf s /\ session_priced st0 s) ->
    reachable st0 st ->
    forall s, In s (parking_sessions st) ->
              session_wf s /\ session_priced st s.
Proof.
  intros st0 st H0 Hr. revert st Hr.
  apply (reachable_ind_transition
           (fun st => forall s, In s (parking_sessions st) ->
                                session_wf s /\ session_priced st s));
    [exact H0|].
  intros st st' Inv T s' HIn.
  assert (forall x, In x (parking_sessions st) ->
                    session_wf x /\ session_priced st' x) as Hold.
  { intros x Hx. destruct (Inv x Hx) as [Hw Hp]. split; [exact Hw|].
    now apply session_priced_mono with st. }
  destruct T as [|u plate Hv|u v zone_id now z Ha Hz|u sid s now b HInu Hs Ho Hact Hb|];
    try (now apply Hold).
  - simpl in HIn. apply in_app_or in HIn. destruct HIn as [HIn|[<-|[]]].
    + now apply Hold.
    + split; [left; simpl; auto|]. intros m Hm. discriminate.
  - simpl in HIn. apply in_update_row in HIn. destruct HIn as [->|HIn].
    + destruct (finalized_wf_priced st s now u b Hb) as [Hw Hp].
      split; [exact Hw|].
      apply session_priced_mono with st; [|exact Hp].
      now apply transition_stop with u sid.
    + now apply Hold.
Qed.

Lemma sessions_well_formed_witness :
  exists s,
    lookup_session 1 st_paid = Some s
    /\ session_wf s /\ session_priced st_paid s.
Proof.
  eexists. split; [reflexivity|].
  apply (sessions_well_formed seeded st_paid);
    [intros s []|exact reachable_st_paid|left; reflexivity].
Defined.

(** ** Keys and references *)

Lemma find_unique {A K} (key : A -> K) (p : A -> bool) (a : A) (l : list A) :
  NoDup (map key l) -> In a l ->
  (forall x, p x = true <-> key x = key a) ->
  find p l = Some a.
Proof.
  intros ND HIn Hp. induction l as [|x l IH]; [destruct HIn|].
  simpl in ND. inversion ND as [|? ? Hnot ND']; subst. simpl.
  destruct (p x) eqn:E.
  - apply Hp in E. destruct HIn as [->|HIn]; [reflexivity|].
    exfalso. apply Hnot. rewrite E. now apply in_map.
  - destruct HIn as [->|HIn]; [|now apply IH].
    assert (p a = true) by (now apply Hp). congruence.
Qed.

Lemma transition_vehicles_unique (st st' : Store) :
  vehicles_pk_unique st /\ plates_unique st -> transition st st' ->
  vehicles_pk_unique st' /\ plates_unique st'.
Proof.
  unfold vehicles_pk_unique, plates_unique. intros [Hpk Hpl] T.
  destruct T as [|u plate Hv|u v zone_id now z Ha Hz|u sid s now b HInu Hs Ho Hact Hb|];
    simpl; auto.
  rewrite !map_app. simpl. split.
  - apply NoDup_app_fresh; [exact Hpk|].
    intros HIn. apply in_map_iff in HIn. destruct HIn as [x [E HIn]].
    apply (next_id_fresh Vehicle.id) in HIn. lia.
  - apply NoDup_app_fresh; [exact Hpl|].
    intros HIn. apply in_map_iff in HIn. destruct HIn as [x [E HIn]].
    injection E as E1 E2. unfold lookup_vehicle in Hv.
    apply (find_none _ _ Hv) in HIn.
    rewrite E1, E2, Z.eqb_refl, String.eqb_refl in HIn. discriminate.
Qed.

(** X15.  From a store where the keys of users, of vehicles and of
    sessions are distinct and no user has two vehicles with one plate, the
    same holds in every store reached.  So a key or a plate names one row:
    [session.get] returns any given session from its key, and the query by
    owner and plate returns any given vehicle. *)
Theorem keys_stay_unique :
  forall st0 st,
    users_pk_unique st0 -> vehicles_pk_unique st0 ->
    sessions_pk_unique st0 -> plates_unique st0 ->
    reachable st0 st ->
    users_pk_unique st /\ vehicles_pk_unique st
    /\ sessions_pk_unique st /\ plates_unique st
    /\ (forall s, In s (parking_sessions st) ->
                  lookup_session (ParkingSession.id s) st = Some s)
    /\ (forall v, In v (vehicles st) ->
                  lookup_vehicle (Vehicle.user_id v) (Vehicle.plate v) st
                  = Some v).
Proof.
  intros st0 st Hu0 Hv0 Hs0 Hp0 Hr.
  assert (users_pk_unique st /\ vehicles_pk_unique st
          /\ sessions_pk_unique st /\ plates_unique st) as [Hu [Hv [Hs Hp]]].
  { revert st Hr. apply reachable_ind_transition; [auto|].
    intros st st' [Hu [Hv [Hs Hp]]] T.
    destruct (transition_vehicles_unique st st' (conj Hv Hp) T) as [Hv' Hp'].
    split; [now apply transition_users_pk_unique with st|].
    split; [exact Hv'|].
    split; [now apply transition_sessions_pk_unique with st|exact Hp']. }
  repeat (split; [assumption|]). split.
  - intros s HIn. unfold lookup_session.
    apply (find_unique ParkingSession.id); auto.
    intros x. apply Z.eqb_eq.
  - intros v HIn. unfold lookup_vehicle.
    apply (find_unique (fun v => (Vehicle.user_id v, Vehicle.plate v)));
      auto.
    intros x. rewrite andb_true_iff, Z.eqb_eq, String.eqb_eq.
    split; [intros [-> ->]; reflexivity|intros E; now injection E].
Qed.

Lemma keys_stay_unique_witness :
  plates_unique st_paid
  /\ lookup_vehicle 1 "ABC123" st_paid = Some (Vehicle.mk 1 1 "ABC123").
Proof.
  destruct (keys_stay_unique seeded st_paid users_pk_unique_seeded
              ltac:(constructor) ltac:(constructor) ltac:(constructor)
              reachable_st_paid) as [_ [_ [_ [Hp [_ Hv]]]]].
  split; [exact Hp|]. apply (Hv (Vehicle.mk 1 1 "ABC123")).
  left. reflexivity.
Defined.

Lemma acts_references (u : User.t) (st st' : Store) :
  In u (users st) -> acts u st st' ->
  references_resolve st -> references_resolve st'.
Proof.
  intros HInu Ha [Hveh Hses].
  assert (forall x, In x (users st) ->
            exists x', In x' (users st') /\ User.id x' = User.id x) as Husers.
  { intros x Hx.
    destruct Ha as [|plate Hv|plate v zone_id now z Hv Hact Hz|sid s now b Hs Ho Hact Hb];
      try (exists x; auto; fail).
    simpl. assert (In (User.id x) (map User.id (users st))) as Hm
      by (now apply in_map).
    rewrite <- (update_row_map_id User.id (billed_user b)) in Hm.
    apply in_map_iff in Hm. destruct Hm as [x' [E Hx']]. eauto. }
  assert (forall uid, (exists x, In x (users st) /\ User.id x = uid) ->
                      exists x, In x (users st') /\ User.id x = uid) as Hu'.
  { intros uid [x [Hx E]]. destruct (Husers x Hx) as [x' [Hx' E']].
    exists x'. split; [exact Hx'|congruence]. }
  destruct Ha as [|plate Hv|plate v zone_id now z Hv Hact Hz|sid s now b Hs Ho Hact Hb].
  - split; assumption.
  - split; [|intros s HIn; destruct (Hses s HIn) as [A [[v [Hv1 Hv2]] C]];
             split; [exact A|]; split; [|exact C];
             exists v; split; [simpl; apply in_or_app; now left|exact Hv2]].
    intros v HIn. simpl in HIn. apply in_app_or in HIn.
    destruct HIn as [HIn|[<-|[]]]; [now apply Hveh|]. exists u. auto.
  - split; [exact Hveh|]. intros s HIn. simpl in HIn.
    apply in_app_or in HIn. destruct HIn as [HIn|[<-|[]]]; [now apply Hses|].
    unfold lookup_vehicle in Hv. apply find_some in Hv.
    destruct Hv as [HInv Hp]. apply andb_true_iff in Hp.
    destruct Hp as [Hown _]. apply Z.eqb_eq in Hown.
    unfold lookup_zone in Hz. apply find_some in Hz. destruct Hz as [HInz Ez].
    apply Z.eqb_eq in Ez. simpl. split; [eauto|]. split; [eauto|eauto].
  - split.
    + intros v HIn. apply Hu'. now apply Hveh.
    + intros x HIn. simpl in HIn.
      assert (exists y, In y (parking_sessions st)
                        /\ ParkingSession.user_id x = ParkingSession.user_id y
                        /\ ParkingSession.vehicle_id x = ParkingSession.vehicle_id y
                        /\ ParkingSession.zone_id x = ParkingSession.zone_id y)
        as [y [Hy [E1 [E2 E3]]]].
      { apply in_update_row in HIn. destruct HIn as [->|HIn].
        - exists s. unfold lookup_session in Hs. apply find_some in Hs.
          destruct Hs as [Hs _]. auto.
        - exists x. auto. }
      destruct (Hses y Hy) as [A [B C]]. rewrite E1, E2, E3.
      split; [now apply Hu'|]. split; assumption.
Qed.

(** X16.  From a store whose references resolve, they resolve in every
    store reached: the owner of every vehicle and of every session is a
    user of the store, the zone of every session is a zone of the store,
    and the vehicle of every session is a vehicle of the store that belongs
    to the user of the session. *)
Theorem references_stay_resolved :
  forall st0 st,
    references_resolve st0 -> reachable st0 st -> references_resolve st.
Proof.
  intros st0 st H0 Hr. revert st Hr.
  apply (reachable_ind_acts references_resolve); [exact H0| |].
  - intros s u s' Inv HIn Ha. now apply acts_references with u s.
  - intros s [Hveh Hses]. split.
    + intros v HIn. destruct (Hveh v HIn) as [u [Hu E]]. exists u.
      split; [|exact E]. simpl. unfold seeded_users.
      destruct (find _ (users s)); [exact Hu|apply in_or_app; now left].
    + intros x HIn. destruct (Hses x HIn) as [[u [Hu E]] [B [z [Hz Ez]]]].
      split; [|split; [exact B|]].
      * exists u. split; [|exact E]. simpl. unfold seeded_users.
        destruct (find _ (users s)); [exact Hu|apply in_or_app; now left].
      * exists z. split; [|exact Ez]. simpl. unfold seeded_zones.
        destruct (zones s); [destruct Hz|exact Hz].
Qed.

Lemma references_stay_resolved_witness : references_resolve st_paid.
Proof.
  apply (references_stay_resolved seeded st_paid); [|exact reachable_st_paid].
  split; intros x [].
Defined.

(** ** Listing vehicles *)

Lemma get_vehicles_run (u : User.t) (st : Store) :
  get_vehicles u st =
  (Ok (map vehicle_response
         (filter (fun v => Vehicle.user_id v =? User.id u) (vehicles st))),
   st).
Proof. reflexivity. Qed.

(** X17.  [get_vehicles] never writes and returns, in the order of the
    table, the vehicles of the caller and no other.  A vehicle the caller
    creates comes last in his next list; a vehicle another user creates
    does not show in it. *)
Theorem get_vehicles_lists_own :
  forall u st,
    exists vs,
      get_vehicles u st = (Ok vs, st)
      /\ (forall vr,
            In vr vs <->
            exists v, In v (vehicles st)
                      /\ Vehicle.user_id v = User.id u
                      /\ vr = vehicle_response v)
      /\ (forall plate r st',
            create_vehicle plate u st = (Ok r, st') ->
            get_vehicles u st' = (Ok (vs ++ [r]), st'))
      /\ (forall plate u' r st',
            User.id u' <> User.id u ->
            create_vehicle plate u' st = (Ok r, st') ->
            get_vehicles u st' = (Ok vs, st')).
Proof.
  intros u st. eexists. split; [apply get_vehicles_run|]. split; [|split].
  - intros vr. rewrite in_map_iff. split.
    + intros [v [E HIn]]. apply filter_In in HIn. destruct HIn as [HIn Hu].
      apply Z.eqb_eq in Hu. eauto.
    + intros [v [HIn [Hu E]]]. exists v. split; [auto|].
      apply filter_In. split; [exact HIn|]. now apply Z.eqb_eq.
  - intros plate r st' H. rewrite create_vehicle_cases in H.
    destruct (lookup_vehicle (User.id u) plate st); [discriminate|].
    inversion H; subst. rewrite get_vehicles_run. simpl.
    rewrite filter_app, map_app. simpl. now rewrite Z.eqb_refl.
  - intros plate u' r st' Hne H. rewrite create_vehicle_cases in H.
    destruct (lookup_vehicle (User.id u') plate st); [discriminate|].
    inversion H; subst. rewrite get_vehicles_run. simpl.
    rewrite filter_app, map_app. simpl.
    apply Z.eqb_neq in Hne. rewrite Hne. simpl. now rewrite app_nil_r.
Qed.

Lemma get_vehicles_lists_own_witness :
  fst (get_vehicles demo_user st_two_users)
  = Ok [VehicleResponse.mk 1 "ABC123" 1]
  /\ fst (get_vehicles demo_user
            (snd (create_vehicle "XYZ789" demo_user st_two_users)))
     = Ok [VehicleResponse.mk 1 "ABC123" 1; VehicleResponse.mk 3 "XYZ789" 1].
Proof.
  destruct (get_vehicles_lists_own demo_user st_two_users)
    as [vs [Hvs [_ [Hcreate _]]]].
  assert (vs = [VehicleResponse.mk 1 "ABC123" 1]) as ->
    by (vm_compute in Hvs; congruence).
  split; [reflexivity|].
  rewrite (Hcreate "XYZ789"%string (VehicleResponse.mk 3 "XYZ789" 1)
             (snd (create_vehicle "XYZ789" demo_user st_two_users)) eq_refl).
  reflexivity.
Defined.

(** ** The minutes of a stay *)

(** X18.  [elapsed_minutes] counts started minutes: a stay of exactly [k]
    minutes counts [k], anything longer by up to a minute counts [k + 1];
    it never goes down when the clock goes up; it is 0 or negative exactly
    when the clock reads no later than the start; and the grace period
    ([minutes <= 3]) is exactly the first 180 seconds, the last
    microsecond included. *)
Theorem elapsed_minutes_counts_started_minutes :
  forall started_at,
    (forall k, elapsed_minutes started_at (started_at + k * 60000000) = k)
    /\ (forall k d,
          0 < d <= 60000000 ->
          elapsed_minutes started_at (started_at + k * 60000000 + d) = k + 1)
    /\ (forall t t',
          t <= t' ->
          elapsed_minutes started_at t <= elapsed_minutes started_at t')
    /\ (forall t, elapsed_minutes started_at t <= 0 <-> t <= started_at)
    /\ (forall t, elapsed_minutes started_at t <= 3
                  <-> t - started_at <= 180 * 1000000).
Proof.
  intros s. split; [|split; [|split; [|split]]].
  - intros k. apply elapsed_minutes_unique. lia.
  - intros k d Hd. apply elapsed_minutes_unique. lia.
  - intros t t' Hle.
    pose proof (elapsed_minutes_bounds s t) as B.
    pose proof (elapsed_minutes_bounds s t') as B'. simpl in B, B'. lia.
  - intros t. pose proof (elapsed_minutes_bounds s t) as B. simpl in B. lia.
  - intros t. pose proof (elapsed_minutes_bounds s t) as B. simpl in B. lia.
Qed.

Lemma elapsed_minutes_counts_started_minutes_witness :
  elapsed_minutes 5 (5 + 3 * 60000000 + 1) = 3 + 1
  /\ elapsed_minutes 5 0 <= elapsed_minutes 5 7.
Proof.
  destruct (elapsed_minutes_counts_started_minutes 5) as [_ [Hnext [Hmono _]]].
  split; [apply Hnext; lia|apply Hmono; lia].
Defined.

(** ** The answers of [start_session] *)

(** X19.  [start_session] answers 409 exactly when the caller's vehicle
    with the plate has an active session.  For a [zone_id] the driver can
    bind, it answers 404 exactly when the caller has no vehicle with the
    plate or, the vehicle being free, the zone is not in the store, and it
    has no other failure.  A plate the caller has no vehicle for, also one
    that only other users have, gives 404 whatever the [zone_id].  When it
    fails it writes nothing. *)
Theorem start_session_outcomes :
  forall plate zone_id now u st,
    (fst (start_session plate zone_id now u st)
     = HTTPException HTTP_409_CONFLICT
     <-> exists v, lookup_vehicle (User.id u) plate st = Some v
                   /\ active_sessions (Vehicle.id v) st <> [])
    /\ (sqlite_integer zone_id ->
        (fst (start_session plate zone_id now u st)
         = HTTPException HTTP_404_NOT_FOUND
         <-> lookup_vehicle (User.id u) plate st = None
             \/ exists v, lookup_vehicle (User.id u) plate st = Some v
                          /\ active_sessions (Vehicle.id v) st = []
                          /\ lookup_zone zone_id st = None))
    /\ ((forall v, In v (vehicles st) -> Vehicle.plate v = plate ->
                   Vehicle.user_id v <> User.id u) ->
        start_session plate zone_id now u st
        = (HTTPException HTTP_404_NOT_FOUND, st))
    /\ ((forall r, fst (start_session plate zone_id now u st) <> Ok r) ->
        snd (start_session plate zone_id now u st) = st)
    /\ (sqlite_integer zone_id ->
        (exists r, fst (start_session plate zone_id now u st) = Ok r)
        \/ fst (start_session plate zone_id now u st)
           = HTTPException HTTP_404_NOT_FOUND
        \/ fst (start_session plate zone_id now u st)
           = HTTPException HTTP_409_CONFLICT)
    /\ (lookup_vehicle (User.id u) plate st = None ->
        start_session plate zone_id now u st
        = (HTTPException HTTP_404_NOT_FOUND, st)).
Proof.
  intros plate zone_id now u st. rewrite start_session_cases.
  split; [|split; [intros _|split; [|split; [|split; [intros _|]]]]].
  - destruct (lookup_vehicle (User.id u) plate st) as [v|]; simpl.
    + destruct (active_sessions (Vehicle.id v) st) eqn:Ha; simpl.
      * destruct (lookup_zone zone_id st); simpl;
          (split; [discriminate|intros [v' [E Hne]]; injection E as <-;
                                congruence]).
      * split; [intros _|reflexivity]. exists v. split; [reflexivity|].
        rewrite Ha. discriminate.
    + split; [discriminate|]. intros [v [E _]]. discriminate.
  - destruct (lookup_vehicle (User.id u) plate st) as [v|]; simpl.
    + destruct (active_sessions (Vehicle.id v) st) eqn:Ha; simpl.
      * destruct (lookup_zone zone_id st) eqn:Hz; simpl.
        -- split; [discriminate|].
           intros [E|[v' [E [_ Hz']]]]; [discriminate|].
           injection E as <-. discriminate.
        -- split; [intros _|reflexivity]. right. exists v. auto.
      * split; [discriminate|].
        intros [E|[v' [E [Ha' _]]]]; [discriminate|].
        injection E as <-. rewrite Ha in Ha'. discriminate.
    + split; [intros _; now left|reflexivity].
  - intros Hother.
    destruct (lookup_vehicle (User.id u) plate st) as [v|] eqn:Hv;
      [|reflexivity].
    exfalso. unfold lookup_vehicle in Hv. apply find_some in Hv.
    destruct Hv as [HIn Hp]. apply andb_true_iff in Hp. destruct Hp as [Ho Hp].
    apply Z.eqb_eq in Ho. apply String.eqb_eq in Hp. now apply (Hother v).
  - destruct (lookup_vehicle (User.id u) plate st) as [v|]; [|reflexivity].
    destruct (active_sessions (Vehicle.id v) st); [|reflexivity].
    destruct (lookup_zone zone_id st); [|reflexivity].
    simpl. intros H. exfalso. eapply H. reflexivity.
  - destruct (lookup_vehicle (User.id u) plate st) as [v|]; [|auto].
    destruct (active_sessions (Vehicle.id v) st); [|auto].
    destruct (lookup_zone zone_id st); [left; eexists; reflexivity|auto].
  - intros Hv. now rewrite Hv.
Qed.

Lemma start_session_outcomes_witness :
  start_session "ABC123" 1 0 other_user st_parked
  = (HTTPException 404, st_parked)
  /\ fst (start_session "ABC123" 1 0 demo_user st_parked)
     = HTTPException 409
  /\ fst (start_session "ABC123" 7 0 demo_user st_paid) = HTTPException 404.
Proof.
  destruct (start_session_outcomes "ABC123" 1 0 other_user st_parked)
    as [_ [_ [Hother _]]].
  destruct (start_session_outcomes "ABC123" 1 0 demo_user st_parked)
    as [[_ H409] _].
  destruct (start_session_outcomes "ABC123" 7 0 demo_user st_paid)
    as [_ [H404 _]].
  split; [|split].
  - apply Hother. intros v [<-|[]] _. simpl. discriminate.
  - apply H409. eexists. split; [reflexivity|]. vm_compute. discriminate.
  - apply H404; [unfold sqlite_integer; lia|].
    right. eexists. split; [reflexivity|]. split; reflexivity.
Defined.

(** ** The answers of the deposit route *)

(** X20.  [POST /wallet/deposit] from an authenticated caller, with a
    [session_id] the driver can bind when there is one, in the order the
    checks run: without [session_id] in the query the request is refused
    by validation; with the key of no session the answer is 404;
    with a session of another user 403; with a session of the caller, 422
    when [amount <= 0] and [AttributeError] otherwise.  The store is as it
    was in each case. *)
Theorem deposit_route_outcomes :
  forall x_api_key now query_session_id amount st u,
    depends_current_user x_api_key st = (Ok u, st) ->
    (forall session_id,
       query_session_id = Some session_id -> sqlite_integer session_id) ->
    handle x_api_key now (POST_wallet_deposit query_session_id amount) st =
    (match query_session_id with
     | None => RequestValidationError
     | Some session_id =>
         match lookup_session session_id st with
         | None => HTTPException HTTP_404_NOT_FOUND
         | Some s =>
             if ParkingSession.user_id s =? User.id u then
               if Qle_bool amount 0
               then HTTPException HTTP_422_UNPROCESSABLE_ENTITY
               else AttributeError
             else HTTPException HTTP_403_FORBIDDEN
         end
     end, st).
Proof.
  intros key now q amount st u Hu _. unfold handle, bind. rewrite Hu.
  destruct q as [sid|]; [|reflexivity].
  destruct (lookup_session sid st) as [s|] eqn:Hs.
  - destruct (ParkingSession.user_id s =? User.id u) eqn:Ho.
    + apply Z.eqb_eq in Ho. rewrite (get_session_run sid u st s Hs Ho).
      rewrite deposit_to_wallet_handler.
      destruct (Qle_bool amount 0); reflexivity.
    + unfold get_session, lookup_session in *. run. now rewrite Hs, Ho.
  - unfold get_session, lookup_session in *. run. now rewrite Hs.
Qed.

Lemma deposit_route_outcomes_witness :
  handle (Some "testkey"%string) 0 (POST_wallet_deposit (Some 2) 50)
    st_two_users
  = (HTTPException 403, st_two_users)
  /\ handle (Some "testkey"%string) 0 (POST_wallet_deposit (Some 1) 0)
       st_two_users
     = (HTTPException 422, st_two_users)
  /\ handle (Some "testkey"%string) 0 (POST_wallet_deposit (Some 1) 50)
       st_two_users
     = (AttributeError, st_two_users)
  /\ handle (Some "testkey"%string) 0 (POST_wallet_deposit (Some 9) 50)
       st_two_users
     = (HTTPException 404, st_two_users).
Proof.
  assert (forall n sid, - 9 <= n <= 9 -> Some n = Some sid ->
                        sqlite_integer sid) as Hrange.
  { intros n sid Hn E. injection E as <-. unfold sqlite_integer. lia. }
  split; [|split; [|split]].
  - exact (deposit_route_outcomes (Some "testkey"%string) 0 (Some 2) 50
             st_two_users demo_user eq_refl
             (fun sid => Hrange 2 sid ltac:(lia))).
  - exact (deposit_route_outcomes (Some "testkey"%string) 0 (Some 1) 0
             st_two_users demo_user eq_refl
             (fun sid => Hrange 1 sid ltac:(lia))).
  - exact (deposit_route_outcomes (Some "testkey"%string) 0 (Some 1) 50
             st_two_users demo_user eq_refl
             (fun sid => Hrange 1 sid ltac:(lia))).
  - exact (deposit_route_outcomes (Some "testkey"%string) 0 (Some 9) 50
             st_two_users demo_user eq_refl
             (fun sid => Hrange 9 sid ltac:(lia))).
Defined.

(** ** Balances only go down *)

Lemma billed_balance_le (m : Z) (zone : option Zone.t) (u : User.t)
  (b : Bill) :
  billed m zone u b ->
  (forall z, zone = Some z -> (0 <= Zone.rate_per_min z)%Q) ->
  (User.balance (billed_user b) <= User.balance u)%Q.
Proof.
  intros Hb Hrate. destruct Hb as [H3|z Hz H3 Hmax|z Hz H3 Hmax Hbal|z Hz H3 Hmax Hbal];
    simpl; try lra.
  assert (0 <= inject_Z m * Zone.rate_per_min z)%Q.
  { apply Qmult_le_0_compat; [|now apply Hrate].
    change 0%Q with (inject_Z 0). rewrite <- Zle_Qle. lia. }
  lra.
Qed.

Lemma transition_rates_nonneg (st st' : Store) :
  rates_nonneg st -> transition st st' -> rates_nonneg st'.
Proof.
  intros Inv T z HIn. destruct T; try (now apply Inv).
  simpl in HIn. unfold seeded_zones in HIn.
  destruct (zones st) eqn:Hz; [|apply Inv; now rewrite Hz].
  destruct HIn as [<-|[<-|[]]]; simpl; lra.
Qed.

Lemma acts_balance_le (a : User.t) (st st' : Store) :
  users_pk_unique st -> rates_nonneg st -> In a (users st) ->
  acts a st st' ->
  forall u, In u (users st) ->
    exists u', In u' (users st')
               /\ user_identity u' = user_identity u
               /\ (User.balance u' <= User.balance u)%Q.
Proof.
  intros Hpk Hrate HIna Ha u HIn.
  destruct Ha as [|plate Hv|plate v zone_id t z Hv Ha Hz|sid s t b Hs Ho Hact Hb];
    try (exists u; split; [exact HIn|]; split; [reflexivity|lra]).
  destruct (Z.eq_dec (User.id a) (User.id u)) as [E|E].
  - assert (a = u) by (now apply (pk_identifies User.id (users st))).
    subst a. exists (billed_user b). split; [|split].
    + simpl. now apply in_update_row_self with u;
        [|destruct Hb; reflexivity].
    + destruct Hb; reflexivity.
    + apply (billed_balance_le _ _ _ _ Hb). intros z Hz. apply Hrate.
      unfold lookup_zone in Hz. now apply find_some in Hz.
  - exists u. split; [|split; [reflexivity|lra]].
    simpl. apply in_update_row_other; [exact HIn|].
    destruct Hb; simpl; congruence.
Qed.

(** X21.  From a store with distinct user keys and no negative rate, in
    every store reached each user of the start is still there with a
    balance that is at most what it was: as the module stands, no request
    and no restart ever raises a balance. *)
Theorem balances_never_rise :
  forall st0 st,
    users_pk_unique st0 -> rates_nonneg st0 -> reachable st0 st ->
    forall u0, In u0 (users st0) ->
      exists u,
        In u (users st)
        /\ user_identity u = user_identity u0
        /\ (User.balance u <= User.balance u0)%Q.
Proof.
  intros st0 st Hpk0 Hrate0 Hr u0 HIn0.
  assert (users_pk_unique st /\ rates_nonneg st
          /\ exists u,
               In u (users st)
               /\ user_identity u = user_identity u0
               /\ (User.balance u <= User.balance u0)%Q) as H.
  { revert st Hr. apply reachable_ind_acts.
    - split; [exact Hpk0|]. split; [exact Hrate0|].
      exists u0. split; [exact HIn0|]. split; [reflexivity|lra].
    - intros st a st' [Hpk [Hrate [u [HIn [Hid Hbal]]]]] HIna Ha.
      pose proof (acts_transition _ _ _ HIna Ha) as T.
      split; [now apply transition_users_pk_unique with st|].
      split; [now apply transition_rates_nonneg with st|].
      destruct (acts_balance_le _ _ _ Hpk Hrate HIna Ha u HIn)
        as [u' [HIn' [Hid' Hbal']]].
      exists u'. split; [exact HIn'|]. split; [congruence|lra].
    - intros st [Hpk [Hrate [u [HIn [Hid Hbal]]]]].
      split; [apply (transition_users_pk_unique st);
              [exact Hpk|apply transition_seed]|].
      split; [apply (transition_rates_nonneg st);
              [exact Hrate|apply transition_seed]|].
      exists u. split; [|split; [exact Hid|exact Hbal]].
      simpl. unfold seeded_users. destruct (find _ (users st)); [exact HIn|].
      apply in_or_app. now left. }
  now destruct H as [_ [_ H]].
Qed.

Lemma rates_nonneg_seeded : rates_nonneg seeded.
Proof. intros z [<-|[<-|[]]]; simpl; lra. Qed.

Lemma balances_never_rise_witness :
  exists u,
    In u (users (snd (handle (Some "testkey"%string) 300000000
                        (POST_wallet_deposit (Some 1) 50) st_paid)))
    /\ (User.balance u <= 300)%Q.
Proof.
  destruct (balances_never_rise seeded
              (snd (handle (Some "testkey"%string) 300000000
                      (POST_wallet_deposit (Some 1) 50) st_paid))
              users_pk_unique_seeded rates_nonneg_seeded
              (reachable_step _ _ _ _ _ reachable_st_paid)
              demo_user (or_introl eq_refl))
    as [u [HIn [_ Hbal]]].
  exists u. split; [exact HIn|exact Hbal].
Defined.

(** ** The zones *)

Lemma reachable_zones_fixed (st0 st : Store) :
  zones st0 <> [] -> reachable st0 st -> zones st = zones st0.
Proof.
  intros Hz Hr. revert st Hr.
  apply (reachable_ind_transition (fun st => zones st = zones st0));
    [reflexivity|].
  intros st st' E T. rewrite <- E.
  destruct T; try reflexivity.
  simpl. apply seeded_zones_fixed. now rewrite E.
Qed.

(** X22.  [GET /zones] with a valid key never writes and returns the whole
    table of zones; in every store reached from one that has zones, that is
    the table of the start: the tariff never changes. *)
Theorem zones_listing_is_constant :
  forall st0 st x_api_key now u,
    zones st0 <> [] -> reachable st0 st ->
    depends_current_user x_api_key st = (Ok u, st) ->
    handle x_api_key now GET_zones st = (Ok (ZoneList (zones st0)), st).
Proof.
  intros st0 st key now u Hz Hr Hu.
  rewrite <- (reachable_zones_fixed st0 st Hz Hr).
  unfold handle, bind. rewrite Hu. unfold get_zones. run.
  now rewrite filter_true.
Qed.

Lemma zones_listing_is_constant_witness :
  handle (Some "testkey"%string) 999 GET_zones st_paid
  = (Ok (ZoneList [Zone.mk 1 "A" (3 # 2) 120; Zone.mk 2 "B" 1 180]), st_paid).
Proof.
  eapply (zones_listing_is_constant seeded st_paid (Some "testkey"%string) 999).
  - discriminate.
  - exact reachable_st_paid.
  - vm_compute. reflexivity.
Defined.
